(** * Switch exhaustiveness: the space engine of lib/Sema/TypeCheckSwitchStmt.cpp

    A shallow embedding of [SpaceEngine] (the [Space] class with [isSubspace],
    [intersect], [minus], [simplify], [decompose], and the driver
    [checkExhaustiveness] with [diagnoseMissingCases], [flatten] and
    [projectPattern]), followed by the properties established about it. *)

From Stdlib Require Import List String Bool Arith ZArith Lia.
Import ListNotations.
Local Open Scope string_scope.
Local Open Scope list_scope.

Set Implicit Arguments.

(** ** Outcomes of a run

    The algebra recurses through decomposed types, which is not structural,
    so the recursive operations carry a recursion budget.  [Abort] stands for
    [llvm_unreachable] and failed [assert]s. *)

Inductive result (A : Type) : Type :=
| Ok (a : A)
| Abort
| OutOfFuel.

Arguments Ok {A} a.
Arguments Abort {A}.
Arguments OutOfFuel {A}.

Definition bind {A B : Type} (m : result A) (k : A -> result B) : result B :=
  match m with
  | Ok a => k a
  | Abort => Abort
  | OutOfFuel => OutOfFuel
  end.

Notation "x <- m ;; k" := (bind m (fun x => k))
  (at level 61, m at next level, right associativity).

(** [std::transform] with a callee that may not return. *)
Fixpoint mapM {A B : Type} (f : A -> result B) (l : list A) : result (list B) :=
  match l with
  | [] => Ok []
  | x :: l' => y <- f x ;; ys <- mapM f l' ;; Ok (y :: ys)
  end.

(** [for (x : l) if (!p(x)) return false; return true;] *)
Fixpoint allM {A : Type} (p : A -> result bool) (l : list A) : result bool :=
  match l with
  | [] => Ok true
  | x :: l' => b <- p x ;; if b then allM p l' else Ok false
  end.

(** [for (x : l) if (p(x)) return true;] followed by the code in [rest]. *)
Fixpoint anyM {A : Type} (p : A -> result bool) (l : list A)
  (rest : result bool) : result bool :=
  match l with
  | [] => rest
  | x :: l' => b <- p x ;; if b then Ok true else anyM p l' rest
  end.

(** The two-iterator loop [for (; i != end1 && j != end2; ++i, ++j)] that
    returns [false] at the first pair failing [p]. *)
Fixpoint allM2 {A : Type} (p : A -> A -> result bool) (l1 l2 : list A)
  : result bool :=
  match l1, l2 with
  | x :: l1', y :: l2' => b <- p x y ;; if b then allM2 p l1' l2' else Ok false
  | _, _ => Ok true
  end.

(** [std::accumulate] with a callee that may not return. *)
Fixpoint foldM {A B : Type} (f : A -> B -> result A) (l : list B) (acc : A)
  : result A :=
  match l with
  | [] => Ok acc
  | x :: l' => acc' <- f acc x ;; foldM f l' acc'
  end.

(** ** Text buffers

    [buffer << text] appends to a stream. *)

Notation "buffer << text" := (String.append buffer text)
  (at level 50, left associativity).


(** ** Identifiers and kinds *)

Definition Identifier := string.

(** [Identifier()], the empty identifier used as the head of tuple spaces. *)
Definition noIdentifier : Identifier := "".

Inductive SpaceKind : Type :=
| KEmpty
| KType
| KConstructor
| KDisjunct
| KBooleanConstant.

Definition SpaceKind_eqb (k1 k2 : SpaceKind) : bool :=
  match k1, k2 with
  | KEmpty, KEmpty
  | KType, KType
  | KConstructor, KConstructor
  | KDisjunct, KDisjunct
  | KBooleanConstant, KBooleanConstant => true
  | _, _ => false
  end.

(** The enumerators of [SpaceKind] as the [uint8_t] they are. *)
Definition kindValue (k : SpaceKind) : Z :=
  match k with
  | KEmpty => Z.shiftl 1 0
  | KType => Z.shiftl 1 1
  | KConstructor => Z.shiftl 1 2
  | KDisjunct => Z.shiftl 1 3
  | KBooleanConstant => Z.shiftl 1 4
  end.

(** [PairSwitch(pair1, pair2)]: the two kinds packed into the 16 bits the
    algebra switches on.  The embedding matches on the pair of spaces
    instead; [PairSwitch_injective] below is why that is the same. *)
Definition PairSwitch (pair1 pair2 : SpaceKind) : Z :=
  Z.lor (kindValue pair1) (Z.shiftl (kindValue pair2) 8).

(** ** Diagnostics

    What [Ctx.Diags.diagnose(loc, id, args...)] with its chained
    [fixItInsert(loc, text)] records. *)

Definition SourceLoc := nat.

Inductive Diag : Type :=
| empty_switch_stmt
| non_exhaustive_switch (InEditor : bool) (uncoveredIsEmpty : bool)
    (text : string)
| missing_particular_case (text : string).

Record Diagnostic : Type := {
  diagLoc : SourceLoc;
  diagMessage : Diag;
  diagFixIts : list (SourceLoc * string)
}.

Record ASTContext : Type := {
  (** [Ctx.LangOpts.DiagnosticsEditorMode] *)
  DiagnosticsEditorMode : bool
}.

(** ** The host compiler's type queries

    [Ty] is [swift::Type].  The queries are the ones the engine makes on it. *)

Section Engine.

Variable Ty : Type.

(** Guard expressions are only tested for presence. *)
Variable Expr : Type.

(** The text of [getCodePlaceholder()]. *)
Variable Placeholder : string.

(** One [EnumElementDecl] as [decompose] sees it for a given enum type:
    its name, whether it has an interface type, and the type of its payload
    as a member of that enum type ([getTypeOfMember] of the argument
    interface type; a null [Type] is [None]). *)
Record EnumElementDecl : Type := {
  eedName : Identifier;
  hasInterfaceType : bool;
  eedTy : option Ty
}.

Record TypeOracle : Type := {
  (** [T->isEqual(U)] *)
  isEqual : Ty -> Ty -> bool;
  (** [T->isBool()] *)
  isBool : Ty -> bool;
  (** [T->getEnumOrBoundGenericEnum()] with [getAllElements()] *)
  getEnumOrBoundGenericEnum : Ty -> option (list EnumElementDecl);
  (** [T->getAs<TupleType>()] with the types of [getElements()] *)
  getAsTupleType : Ty -> option (list Ty);
  (** [dyn_cast<ParenType>(T)] with [getUnderlyingType()] *)
  getAsParenType : Ty -> option Ty;
  (** the text [T->print(buffer)] writes *)
  printType : Ty -> string
}.

Variable O : TypeOracle.

(** ** Spaces *)

Unset Elimination Schemes.

Inductive Space : Type :=
| Empty
| TypeSpace (T : Ty)
| Constructor (T : Ty) (H : Identifier) (SP : list Space)
| Disjunct (SP : list Space)
| BooleanConstant (C : bool).

Set Elimination Schemes.

Definition getKind (s : Space) : SpaceKind :=
  match s with
  | Empty => KEmpty
  | TypeSpace _ => KType
  | Constructor _ _ _ => KConstructor
  | Disjunct _ => KDisjunct
  | BooleanConstant _ => KBooleanConstant
  end.

Definition isEmpty (s : Space) : bool :=
  match s with
  | Empty => true
  | _ => false
  end.

(** Accessors guarded by an [assert] on the kind. *)
Definition getType (s : Space) : result Ty :=
  match s with
  | TypeSpace T | Constructor T _ _ => Ok T
  | _ => Abort
  end.

Definition getHead (s : Space) : result Identifier :=
  match s with
  | Constructor _ H _ => Ok H
  | _ => Abort
  end.

Definition getSpaces (s : Space) : result (list Space) :=
  match s with
  | Constructor _ _ SP | Disjunct SP => Ok SP
  | _ => Abort
  end.

(** The lambda [examineDecomp] of [intersect] and [minus]. *)
Definition examineDecomp (decomposition : list Space) : Space :=
  match decomposition with
  | [] => Empty
  | [s] => s
  | _ => Disjunct decomposition
  end.

(** ** Decomposition *)

Definition isSome {A : Type} (o : option A) : bool :=
  match o with
  | Some _ => true
  | None => false
  end.

Definition canDecompose (tp : Ty) : bool :=
  isSome (getAsTupleType O tp) || isBool O tp
  || isSome (getEnumOrBoundGenericEnum O tp).

(** The lambda that [decompose] maps over the elements of an enum. *)
Definition decomposeElement (tp : Ty) (eed : EnumElementDecl) : Space :=
  if negb (hasInterfaceType eed) then Empty
  else
    let constElemSpaces :=
      match eedTy eed with
      | Some ty =>
          match getAsTupleType O ty with
          | Some elts => map TypeSpace elts
          | None =>
              match getAsParenType O ty with
              | Some underlying => [TypeSpace underlying]
              | None => []
              end
          end
      | None => []
      end in
    Constructor tp (eedName eed) constElemSpaces.

(** [decompose(tp, arr)] on an empty [arr], as at every call site; [None] is
    the failed [assert(canDecompose(tp))]. *)
Definition decompose (tp : Ty) : option (list Space) :=
  if isBool O tp then Some [BooleanConstant true; BooleanConstant false]
  else
    match getEnumOrBoundGenericEnum O tp with
    | Some children => Some (map (decomposeElement tp) children)
    | None =>
        match getAsTupleType O tp with
        | Some elts => Some [Constructor tp noIdentifier (map TypeSpace elts)]
        | None => None
        end
    end.

(** A call [decompose(tp, spaces)] in a branch guarded by [canDecompose]. *)
Definition decomposeM (tp : Ty) : result (list Space) :=
  match decompose tp with
  | Some spaces => Ok spaces
  | None => Abort
  end.

(** ** Simplification *)

Fixpoint simplify (s : Space) : Space :=
  match s with
  | Constructor T H SP =>
      match SP with
      | [] => s
      | _ =>
          let simplifiedSpaces := map simplify SP in
          if existsb isEmpty simplifiedSpaces then Empty
          else Constructor T H simplifiedSpaces
      end
  | TypeSpace T =>
      if canDecompose T then
        match decompose T with
        | Some [] => Empty
        | _ => s
        end
      else s
  | Disjunct SP =>
      let simplifiedSpaces := map simplify SP in
      match simplifiedSpaces with
      | [front] => front
      | _ =>
          let compatifiedSpaces :=
            filter (fun el => negb (isEmpty el)) simplifiedSpaces in
          match compatifiedSpaces with
          | [] => Empty
          | [front] => front
          | _ => Disjunct compatifiedSpaces
          end
      end
  | _ => s
  end.

Definition nonEmpty (s : Space) : bool := negb (isEmpty s).

(** ** Subspace test

    [fuel] bounds the depth of the recursion; the source has no such bound. *)

Fixpoint isSubspace (fuel : nat) (this other : Space) : result bool :=
  match fuel with
  | 0 => OutOfFuel
  | S n =>
    if isEmpty this then Ok true
    else if isEmpty other then Ok false
    else
      match this, other with
      | Disjunct SP, _ =>
          allM (fun space => isSubspace n space other) SP
      | TypeSpace T1, TypeSpace T2 =>
          if isEqual O T1 T2 then Ok true
          else
            covered <-
              (if canDecompose T1 then
                 disjuncts <- decomposeM T1 ;;
                 isSubspace n (Disjunct disjuncts) other
               else Ok false) ;;
            if covered then Ok true
            else if canDecompose T2 then
              disjuncts <- decomposeM T2 ;;
              isSubspace n this (Disjunct disjuncts)
            else Ok true
      | TypeSpace T1, Disjunct SP =>
          anyM (fun dis => isSubspace n this dis) SP
            (if negb (canDecompose T1) then Ok false
             else
               disjuncts <- decomposeM T1 ;;
               isSubspace n (Disjunct disjuncts) other)
      | TypeSpace T1, Constructor _ _ _ =>
          if canDecompose T1 then
            disjuncts <- decomposeM T1 ;;
            isSubspace n (Disjunct disjuncts) other
          else Ok false
      | Constructor _ _ _, TypeSpace _ => Ok true
      | BooleanConstant _, TypeSpace T2 => Ok (isBool O T2)
      | Constructor _ H1 SP1, Constructor _ H2 SP2 =>
          if negb (String.eqb H1 H2) then Ok false
          else
            match SP2 with
            | [] => Ok true
            | _ => allM2 (isSubspace n) SP1 SP2
            end
      | Constructor _ _ _, Disjunct SP
      | BooleanConstant _, Disjunct SP =>
          anyM (fun param => isSubspace n this param) SP (Ok false)
      | BooleanConstant b1, BooleanConstant b2 => Ok (Bool.eqb b1 b2)
      | Constructor _ _ _, BooleanConstant _
      | TypeSpace _, BooleanConstant _ => Ok false
      | _, _ => Abort
      end
  end.

(** ** Intersection *)

(** The parameter loop of the constructor case: [None] is the early
    [return Space()], [Some paramSpace] the list built by [push_back]. *)
Fixpoint intersectParams (inter : Space -> Space -> result Space)
  (l1 l2 : list Space) (paramSpace : list Space)
  : result (option (list Space)) :=
  match l1, l2 with
  | i :: l1', j :: l2' =>
      intersection <- inter i j ;;
      if isEmpty (simplify intersection) then Ok None
      else intersectParams inter l1' l2' (paramSpace ++ [intersection])
  | _, _ => Ok (Some paramSpace)
  end.

Fixpoint intersect (fuel : nat) (this other : Space) : result Space :=
  match fuel with
  | 0 => OutOfFuel
  | S n =>
    if isEmpty this || isEmpty other then Ok Empty
    else
      match this, other with
      | _, Disjunct SP =>
          intersectedCases <- mapM (fun s => intersect n this s) SP ;;
          Ok (examineDecomp (filter nonEmpty intersectedCases))
      | Disjunct SP, _ =>
          intersectedCases <- mapM (fun s => intersect n s other) SP ;;
          Ok (examineDecomp (filter nonEmpty intersectedCases))
      | TypeSpace T1, TypeSpace T2 =>
          if isEqual O T1 T2 then Ok other
          else if canDecompose T1 then
            spaces <- decomposeM T1 ;;
            intersect n (examineDecomp spaces) other
          else if canDecompose T2 then
            spaces <- decomposeM T2 ;;
            intersect n this (examineDecomp spaces)
          else Ok other
      | TypeSpace T1, Constructor _ _ _ =>
          if canDecompose T1 then
            spaces <- decomposeM T1 ;;
            intersect n (examineDecomp spaces) other
          else Ok other
      | Constructor _ _ _, TypeSpace _ => Ok this
      | Constructor _ H1 SP1, Constructor _ H2 SP2 =>
          if negb (String.eqb H1 H2) then Ok Empty
          else
            match SP2 with
            | [] => Ok this
            | _ =>
                r <- intersectParams (intersect n) SP1 SP2 [] ;;
                match r with
                | None => Ok Empty
                | Some paramSpace => Ok (examineDecomp paramSpace)
                end
            end
      | BooleanConstant b1, BooleanConstant b2 =>
          Ok (if Bool.eqb b1 b2 then this else Empty)
      | BooleanConstant _, TypeSpace T2 =>
          if isBool O T2 then
            Ok (if SpaceKind_eqb (getKind this) KBooleanConstant
                then this else Empty)
          else if canDecompose T2 then
            spaces <- decomposeM T2 ;;
            intersect n this (examineDecomp spaces)
          else Ok Empty
      | BooleanConstant _, Constructor _ _ _ => Ok Empty
      | TypeSpace T1, BooleanConstant _ =>
          if canDecompose T1 then
            spaces <- decomposeM T1 ;;
            intersect n (examineDecomp spaces) other
          else Ok Empty
      | Constructor _ _ _, BooleanConstant _ => Ok Empty
      | _, _ => Abort
      end
  end.

(** ** Subtraction *)

(** [copyParams[idx] = v].  [idx] is the position of an element of the list
    it indexes, so the assignment is always in range. *)
Fixpoint assign (l : list Space) (idx : nat) (v : Space) : list Space :=
  match l, idx with
  | [], _ => []
  | _ :: l', 0 => v :: l'
  | x :: l', S idx' => x :: assign l' idx' v
  end.

(** The parameter loop of the constructor case, over the remaining
    parameters [l1] of [this] and [l2] of [other], with the loop state [idx],
    [constrSpaces] and [foundBad].  [None] is the early [return *this]. *)
Fixpoint minusParams (inter : Space -> Space -> result Space)
  (sub : Space -> Space -> result bool)
  (diff : Space -> Space -> result Space)
  (T : Ty) (H : Identifier) (params : list Space)
  (l1 l2 : list Space) (idx : nat) (constrSpaces : list Space)
  (foundBad : bool) : result (option (list Space * bool)) :=
  match l1, l2 with
  | s1 :: l1', s2 :: l2' =>
      intersection <- inter s1 s2 ;;
      if isEmpty (simplify intersection) then Ok None
      else
        covered <- sub s1 s2 ;;
        let foundBad' := if negb covered then true else foundBad in
        difference <- diff s1 s2 ;;
        let copyParams := assign params idx difference in
        let CS := Constructor T H copyParams in
        minusParams inter sub diff T H params l1' l2' (S idx)
          (constrSpaces ++ [CS]) foundBad'
  | _, _ => Ok (Some (constrSpaces, foundBad))
  end.

Fixpoint minus (fuel : nat) (this other : Space) : result Space :=
  match fuel with
  | 0 => OutOfFuel
  | S n =>
    if isEmpty this then Ok Empty
    else if isEmpty other then Ok this
    else
      match this, other with
      | TypeSpace T1, TypeSpace T2 =>
          if isEqual O T1 T2 then Ok Empty
          else if canDecompose T1 then
            spaces <- decomposeM T1 ;;
            intersect n (examineDecomp spaces) other
          else if canDecompose T2 then
            spaces <- decomposeM T2 ;;
            intersect n this (examineDecomp spaces)
          else Ok Empty
      | TypeSpace T1, Constructor _ _ _ =>
          if canDecompose T1 then
            spaces <- decomposeM T1 ;;
            minus n (examineDecomp spaces) other
          else Ok this
      | _, Disjunct SP =>
          foldM (fun left right => minus n left right) SP this
      | Disjunct SP, _ =>
          smallSpaces <- mapM (fun first => minus n first other) SP ;;
          Ok (examineDecomp smallSpaces)
      | Constructor _ _ _, TypeSpace _ => Ok Empty
      | Constructor T H1 SP1, Constructor _ H2 SP2 =>
          if negb (String.eqb H1 H2) then Ok this
          else
            match SP2 with
            | [] => Ok Empty
            | _ =>
                r <- minusParams (intersect n) (isSubspace n) (minus n)
                       T H1 SP1 SP1 SP2 0 [] false ;;
                match r with
                | None => Ok this
                | Some (constrSpaces, foundBad) =>
                    if foundBad then Ok (examineDecomp constrSpaces)
                    else Ok Empty
                end
            end
      | BooleanConstant b1, BooleanConstant b2 =>
          if Bool.eqb b1 b2 then Ok Empty else Ok this
      | BooleanConstant _, TypeSpace T2 =>
          if isBool O T2 then
            Ok (if SpaceKind_eqb (getKind this) KBooleanConstant
                then Empty else this)
          else if canDecompose T2 then
            spaces <- decomposeM T2 ;;
            minus n this (examineDecomp spaces)
          else Ok this
      | BooleanConstant _, Constructor _ _ _ => Ok this
      | TypeSpace T1, BooleanConstant _ =>
          if canDecompose T1 then
            spaces <- decomposeM T1 ;;
            minus n (examineDecomp spaces) other
          else Ok this
      | Constructor _ _ _, BooleanConstant _ => Ok Empty
      | _, _ => Abort
      end
  end.

(** ** Rendering

    [show] appends to [buffer].  It recurses on simplified spaces, so it
    carries a budget as well. *)

Definition newline : string := String (Ascii.ascii_of_nat 10) EmptyString.

(** The parameter loop of the constructor case with its [first] flag. *)
Fixpoint showParams (showParam : Space -> string -> result string)
  (params : list Space) (first : bool) (buffer : string) : result string :=
  match params with
  | [] => Ok buffer
  | param :: params' =>
      let buffer1 := if negb first then buffer << ", " else buffer in
      buffer2 <- showParam param buffer1 ;;
      showParams showParam params' false buffer2
  end.

Fixpoint show (fuel : nat) (s : Space) (buffer : string) (normalize : bool)
  : result string :=
  match fuel with
  | 0 => OutOfFuel
  | S n =>
      match s with
      | Empty => Ok (buffer << "[EMPTY]")
      | Disjunct SP =>
          if normalize then show n (simplify s) buffer false
          else
            buffer1 <-
              foldM (fun buf sp =>
                       buf1 <- show n sp (buf << newline) normalize ;;
                       Ok (buf1 << " |"))
                    SP (buffer << "DISJOIN(") ;;
            Ok (buffer1 << ")")
      | BooleanConstant C => Ok (buffer << (if C then "true" else "false"))
      | Constructor _ H SP =>
          let buffer1 :=
            if negb (String.eqb H "") then buffer << "." << H else buffer in
          match SP with
          | [] => Ok buffer1
          | _ =>
              buffer2 <-
                showParams
                  (fun param buf =>
                     if normalize then show n (simplify param) buf normalize
                     else show n param buf true)
                  SP true (buffer1 << "(") ;;
              Ok (buffer2 << ")")
          end
      | TypeSpace T =>
          let buffer1 :=
            if negb normalize then buffer << printType O T else buffer in
          Ok (buffer1 << "_")
      end
  end.

(** ** Flattening *)

(** The test in front of [continue] in the constructor case, as written. *)
Definition flattenSkips (param : Space) : bool :=
  negb (SpaceKind_eqb (getKind param) KConstructor)
  || negb (SpaceKind_eqb (getKind param) KDisjunct)
  || negb (SpaceKind_eqb (getKind param) KBooleanConstant).

(** [row[i] = v] on a [SmallVector], whose [operator[]] asserts the index. *)
Definition assignM (row : list Space) (i : nat) (v : Space)
  : result (list Space) :=
  if Nat.ltb i (List.length row) then Ok (assign row i v) else Abort.

(** The body of the inner loop over [flattenedParams]; its loop variable
    shadows the outer [space], so every access is to the flattened one. *)
Definition flattenRow (i : nat) (flats : list Space) (space : Space)
  : result (list Space) :=
  row <- getSpaces space ;;
  row' <- assignM row i space ;;
  T <- getType space ;;
  H <- getHead space ;;
  Ok (flats ++ [Constructor T H row']).

(** [flatten(space, flats)]: the result is [flats] after the call. *)
Fixpoint flatten (space : Space) (flats : list Space) : result (list Space) :=
  match space with
  | Constructor _ _ SP =>
      (fix params (l : list Space) (i : nat) (flats : list Space)
         : result (list Space) :=
         match l with
         | [] => Ok flats
         | param :: l' =>
             if flattenSkips param then params l' i flats
             else
               flattenedParams <- flatten param [] ;;
               flats' <- foldM (flattenRow i) flattenedParams flats ;;
               params l' (S i) flats'
         end) SP 0 flats
  | Disjunct SP =>
      (fix members (l : list Space) (flats : list Space)
         : result (list Space) :=
         match l with
         | [] => Ok flats
         | s :: l' => flats' <- flatten s flats ;; members l' flats'
         end) SP flats
  | _ => Ok (flats ++ [space])
  end.

(** ** Patterns and their projection

    Each pattern carries the type [getType()] returns where the engine asks
    for it. *)

Unset Elimination Schemes.

Inductive Pattern : Type :=
| AnyPattern (ty : Ty)
| NamedPattern (ty : Ty)
| BoolPattern (value : bool)
| TypedPattern (sub : Pattern)
| IsPattern
| ExprPattern
| VarPattern (sub : Pattern)
| ParenPattern (sub : Pattern)
| OptionalSomePattern (ty : Ty) (sub : Pattern)
| EnumElementPattern (ty : Ty) (name : Identifier) (sub : option Pattern)
| TuplePattern (ty : Ty) (elts : list Pattern).

Set Elimination Schemes.

(** Modelled from the spec: [Pattern::getSemanticsProvidingPattern] is
    declared outside this file; the "inner" pattern of a parenthesized
    payload is the pattern under its parentheses, [var] wrappers and type
    annotations. *)
Fixpoint getSemanticsProvidingPattern (p : Pattern) : Pattern :=
  match p with
  | ParenPattern sub | TypedPattern sub | VarPattern sub =>
      getSemanticsProvidingPattern sub
  | _ => p
  end.

Fixpoint projectPattern (item : Pattern) : Space :=
  match item with
  | AnyPattern ty | NamedPattern ty => TypeSpace ty
  | BoolPattern value => BooleanConstant value
  | TypedPattern _ | IsPattern | ExprPattern => Empty
  | VarPattern sub => projectPattern sub
  | ParenPattern sub => projectPattern sub
  | OptionalSomePattern ty sub =>
      Constructor ty "some" [projectPattern sub]
  | EnumElementPattern ty name None => Constructor ty name []
  | EnumElementPattern ty name (Some SP) =>
      match SP with
      | TuplePattern _ elts => Constructor ty name (map projectPattern elts)
      | ParenPattern _ =>
          let SP' := getSemanticsProvidingPattern SP in
          let conArgSpace :=
            match SP' with
            | NamedPattern t | AnyPattern t | TuplePattern t _ =>
                match getAsTupleType O t with
                | Some elts => map TypeSpace elts
                | None => [projectPattern SP']
                end
            | _ => [projectPattern SP']
            end in
          Constructor ty name conArgSpace
      | _ => projectPattern SP
      end
  | TuplePattern ty elts =>
      Constructor ty noIdentifier (map projectPattern elts)
  end.

(** ** The switch statement and the driver *)

Record CaseLabelItem : Type := {
  getPattern : Pattern;
  getGuardExpr : option Expr;
  isDefault : bool
}.

Record CaseStmt : Type := {
  getCaseLabelItems : list CaseLabelItem
}.

Record SwitchStmt : Type := {
  (** [getSubjectExpr()->getType()] *)
  getSubjectType : Ty;
  getCases : list CaseStmt;
  getStartLoc : SourceLoc;
  getEndLoc : SourceLoc
}.

Definition empty {A : Type} (l : list A) : bool :=
  match l with
  | [] => true
  | _ => false
  end.

(** The two loops over [flats] in [diagnoseMissingCases] start from the
    flattened space, or from the space itself when flattening gave nothing. *)
Definition flatsOf (uncoveredSpace : Space) : result (list Space) :=
  flats <- flatten uncoveredSpace [] ;;
  Ok (if empty flats then flats ++ [uncoveredSpace] else flats).

(** [diagnoseMissingCases]: the diagnostics emitted by a call that returns,
    in order. *)
Definition diagnoseMissingCases (fuel : nat) (Ctx : ASTContext)
  (Switch : SwitchStmt) (JustNeedsDefault : bool) (uncovered : Space)
  : result (list Diagnostic) :=
  let EmptySwitch := empty (getCases Switch) in
  let StartLoc := getStartLoc Switch in
  let EndLoc := getEndLoc Switch in
  let InEditor := DiagnosticsEditorMode Ctx in
  if JustNeedsDefault then
    let Buffer := "" << "default" << ": " << Placeholder << newline in
    if EmptySwitch then
      Ok [ {| diagLoc := StartLoc; diagMessage := empty_switch_stmt;
              diagFixIts := [(EndLoc, Buffer)] |} ]
    else
      Ok [ {| diagLoc := StartLoc;
              diagMessage :=
                non_exhaustive_switch InEditor (isEmpty uncovered) "";
              diagFixIts := [(EndLoc, Buffer)] |} ]
  else if isEmpty uncovered then Ok []
  else if InEditor then
    spaces <- getSpaces uncovered ;;
    Buffer <-
      foldM (fun Buffer uncoveredSpace =>
               flats <- flatsOf uncoveredSpace ;;
               foldM (fun Buffer FlatSpace =>
                        Buffer1 <- show fuel FlatSpace
                                     (Buffer << "case" << " ") true ;;
                        Ok (Buffer1 << ": " << Placeholder << newline))
                     flats Buffer)
            spaces "" ;;
    Ok [ {| diagLoc := StartLoc;
            diagMessage := non_exhaustive_switch InEditor false Buffer;
            diagFixIts := [(EndLoc, Buffer)] |} ]
  else
    spaces <- getSpaces uncovered ;;
    missing <-
      foldM (fun Diags uncoveredSpace =>
               flats <- flatsOf uncoveredSpace ;;
               foldM (fun Diags FlatSpace =>
                        Buffer <- show fuel FlatSpace "" true ;;
                        Ok (Diags ++
                            [ {| diagLoc := StartLoc;
                                 diagMessage := missing_particular_case Buffer;
                                 diagFixIts := [] |} ]))
                     flats Diags)
            spaces
            [ {| diagLoc := StartLoc;
                 diagMessage := non_exhaustive_switch InEditor false "";
                 diagFixIts := [] |} ] ;;
    Ok missing.

(** The loop over the case-label items of one case block, with the vector
    [spaces] as state; [None] is the [return] at a default item. *)
Fixpoint projectCaseLabelItems (items : list CaseLabelItem)
  (spaces : list Space) : option (list Space) :=
  match items with
  | [] => Some spaces
  | caseItem :: items' =>
      if isSome (getGuardExpr caseItem) then
        projectCaseLabelItems items' spaces
      else
        let projection := projectPattern (getPattern caseItem) in
        if isDefault caseItem then None
        else projectCaseLabelItems items' (spaces ++ [projection])
  end.

(** The loop over the case blocks. *)
Fixpoint projectCases (cases : list CaseStmt) (spaces : list Space)
  : option (list Space) :=
  match cases with
  | [] => Some spaces
  | caseBlock :: cases' =>
      match projectCaseLabelItems (getCaseLabelItems caseBlock) spaces with
      | None => None
      | Some spaces' => projectCases cases' spaces'
      end
  end.

(** [checkExhaustiveness]: the diagnostics emitted by a call that returns. *)
Definition checkExhaustiveness (fuel : nat) (Ctx : ASTContext)
  (Switch : SwitchStmt) (limitedChecking : bool) : result (list Diagnostic) :=
  if limitedChecking then
    if empty (getCases Switch) then
      diagnoseMissingCases fuel Ctx Switch true Empty
    else Ok []
  else
    match projectCases (getCases Switch) [] with
    | None => Ok []
    | Some spaces =>
        let totalSpace := TypeSpace (getSubjectType Switch) in
        let coveredSpace := Disjunct spaces in
        difference <- minus fuel totalSpace coveredSpace ;;
        let uncovered := simplify difference in
        if isEmpty uncovered then Ok []
        else
          match uncovered with
          | TypeSpace T =>
              if canDecompose T then
                spaces <- decomposeM T ;;
                diagnoseMissingCases fuel Ctx Switch false (Disjunct spaces)
              else diagnoseMissingCases fuel Ctx Switch true Empty
          | _ =>
              let uncovered' :=
                if negb (SpaceKind_eqb (getKind uncovered) KDisjunct)
                then Disjunct [uncovered] else uncovered in
              diagnoseMissingCases fuel Ctx Switch false uncovered'
          end
    end.

End Engine.

Arguments Empty {Ty}.
Arguments isEmpty {Ty} s.
Arguments nonEmpty {Ty} s.
Arguments getKind {Ty} s.
Arguments examineDecomp {Ty} decomposition.
Arguments flattenSkips {Ty} param.
Arguments Disjunct {Ty} SP.
Arguments BooleanConstant {Ty} C.
Arguments IsPattern {Ty}.
Arguments ExprPattern {Ty}.
Arguments BoolPattern {Ty} value.

(** ** Induction on spaces through their lists of subspaces *)

Section SpaceInduction.

Variable Ty : Type.
Variable P : Space Ty -> Prop.

Hypothesis P_Empty : P Empty.
Hypothesis P_TypeSpace : forall T, P (TypeSpace T).
Hypothesis P_Constructor :
  forall T H SP, Forall P SP -> P (Constructor T H SP).
Hypothesis P_Disjunct : forall SP, Forall P SP -> P (Disjunct SP).
Hypothesis P_BooleanConstant : forall C, P (BooleanConstant C).

Fixpoint Space_ind (s : Space Ty) : P s :=
  let all :=
    fix all (l : list (Space Ty)) : Forall P l :=
      match l with
      | [] => Forall_nil P
      | x :: l' => Forall_cons x (Space_ind x) (all l')
      end in
  match s with
  | Empty => P_Empty
  | TypeSpace T => P_TypeSpace T
  | Constructor T H SP => P_Constructor T H (all SP)
  | Disjunct SP => P_Disjunct (all SP)
  | BooleanConstant C => P_BooleanConstant C
  end.

End SpaceInduction.

(** ** A small universe of types for concrete runs

    [Bool], [Int], the sugared [(Bool)], the tuple [(Int, Int)],
    [enum Maybe<T> { case none, some(T) }] at [Maybe<Bool>], the tuple
    [(Maybe<Bool>, Maybe<Bool>)], and an enum [Broken { case a, b }] whose
    element [a] has no interface type. *)

Inductive SampleTy : Type :=
| TBool
| TInt
| TParenBool
| TIntPair
| TMaybeBool
| TMaybePair
| TBroken.

Definition SampleTy_eqb (t u : SampleTy) : bool :=
  match t, u with
  | TBool, TBool
  | TInt, TInt
  | TParenBool, TParenBool
  | TIntPair, TIntPair
  | TMaybeBool, TMaybeBool
  | TMaybePair, TMaybePair
  | TBroken, TBroken => true
  | _, _ => false
  end.

Definition sampleOracle : TypeOracle SampleTy := {|
  isEqual := SampleTy_eqb;
  isBool := fun t => match t with TBool => true | _ => false end;
  getEnumOrBoundGenericEnum := fun t =>
    match t with
    | TMaybeBool =>
        Some [ {| eedName := "none"; hasInterfaceType := true;
                  eedTy := None |};
               {| eedName := "some"; hasInterfaceType := true;
                  eedTy := Some TParenBool |} ]
    | TBroken =>
        Some [ {| eedName := "a"; hasInterfaceType := false;
                  eedTy := None |};
               {| eedName := "b"; hasInterfaceType := true;
                  eedTy := None |} ]
    | _ => None
    end;
  getAsTupleType := fun t =>
    match t with
    | TIntPair => Some [TInt; TInt]
    | TMaybePair => Some [TMaybeBool; TMaybeBool]
    | _ => None
    end;
  getAsParenType := fun t =>
    match t with
    | TParenBool => Some TBool
    | _ => None
    end;
  printType := fun t =>
    match t with
    | TBool => "Bool"
    | TInt => "Int"
    | TParenBool => "(Bool)"
    | TIntPair => "(Int, Int)"
    | TMaybeBool => "Maybe<Bool>"
    | TMaybePair => "(Maybe<Bool>, Maybe<Bool>)"
    | TBroken => "Broken"
    end
|}.

Definition samplePlaceholder : string := "<#code#>".

(** [switch m { case .some(true) where g: ...; default: ... }] on a
    [Maybe<Bool>]; guards are [unit] values. *)
Definition sampleSwitch : SwitchStmt SampleTy unit :=
  {| getSubjectType := TMaybeBool;
     getCases :=
       [ {| getCaseLabelItems :=
              [ {| getPattern :=
                     EnumElementPattern TMaybeBool "some"
                       (Some (ParenPattern (BoolPattern true)));
                   getGuardExpr := Some tt;
                   isDefault := false |} ] |};
         {| getCaseLabelItems :=
              [ {| getPattern := AnyPattern TMaybeBool;
                   getGuardExpr := None;
                   isDefault := true |} ] |} ];
     getStartLoc := 0;
     getEndLoc := 9 |}.

(** A switch on [subject] with one unguarded, non-default item per case. *)
Definition sampleSwitchOn (subject : SampleTy)
  (patterns : list (Pattern SampleTy)) : SwitchStmt SampleTy unit :=
  {| getSubjectType := subject;
     getCases :=
       map (fun pattern =>
              {| getCaseLabelItems :=
                   [ {| getPattern := pattern; getGuardExpr := None;
                        isDefault := false |} ] |})
           patterns;
     getStartLoc := 0;
     getEndLoc := 9 |}.

(** [.none] and [.some(p)] on [Maybe<Bool>]. *)
Definition nonePattern : Pattern SampleTy :=
  EnumElementPattern TMaybeBool "none" None.

Definition somePattern (p : Pattern SampleTy) : Pattern SampleTy :=
  EnumElementPattern TMaybeBool "some" (Some (ParenPattern p)).

(** The diagnostics of a non-exhaustive switch outside the editor, from the
    texts of the missing cases. *)
Definition missing (texts : list string) : list Diagnostic :=
  {| diagLoc := 0; diagMessage := non_exhaustive_switch false false "";
     diagFixIts := [] |}
  :: map (fun text =>
            {| diagLoc := 0; diagMessage := missing_particular_case text;
               diagFixIts := [] |})
         texts.

(** A run of the check on a sample switch, outside the editor. *)
Definition sampleRun (Switch : SwitchStmt SampleTy unit)
  : result (list Diagnostic) :=
  checkExhaustiveness samplePlaceholder sampleOracle 12
    {| DiagnosticsEditorMode := false |} Switch false.

(** ** Notions used in the statements *)

Section Notions.

Variable Ty : Type.
Variable Expr : Type.
Variable O : TypeOracle Ty.

(** A case-label item without [where] clause. *)
Definition unguarded (caseItem : CaseLabelItem Ty Expr) : bool :=
  negb (isSome (getGuardExpr caseItem)).

Definition unguardedDefault (caseItem : CaseLabelItem Ty Expr) : bool :=
  unguarded caseItem && isDefault caseItem.

(** Every case-label item of a switch, in source order. *)
Definition allCaseLabelItems (Switch : SwitchStmt Ty Expr)
  : list (CaseLabelItem Ty Expr) :=
  flat_map (@getCaseLabelItems Ty Expr) (getCases Switch).

(** The switch with the guarded items deleted from every case block. *)
Definition withoutGuardedItems (Switch : SwitchStmt Ty Expr)
  : SwitchStmt Ty Expr :=
  {| getSubjectType := getSubjectType Switch;
     getCases :=
       map (fun caseBlock =>
              {| getCaseLabelItems :=
                   filter unguarded (getCaseLabelItems caseBlock) |})
           (getCases Switch);
     getStartLoc := getStartLoc Switch;
     getEndLoc := getEndLoc Switch |}.

Definition projectItem (caseItem : CaseLabelItem Ty Expr) : Space Ty :=
  projectPattern O (getPattern caseItem).

(** A space over the subject type [subject]: the whole type, one of its
    constructor spaces, a boolean constant when the subject is boolean, and
    the disjuncts of such spaces. *)
#[warnings="-register-all"]
Inductive SpaceOver (subject : Ty) : Space Ty -> Prop :=
| SpaceOver_Empty : SpaceOver subject Empty
| SpaceOver_Type : SpaceOver subject (TypeSpace subject)
| SpaceOver_Constructor :
    forall H SP, SpaceOver subject (Constructor subject H SP)
| SpaceOver_Disjunct :
    forall SP, Forall (SpaceOver subject) SP -> SpaceOver subject (Disjunct SP)
| SpaceOver_BooleanConstant :
    forall C, isBool O subject = true ->
              SpaceOver subject (BooleanConstant C).

(** The runs of [f] on the pairs the two-iterator loops visit, in order,
    when every one of them returns. *)
Fixpoint zipM {A : Type} (f : Space Ty -> Space Ty -> result A)
  (l1 l2 : list (Space Ty)) : result (list A) :=
  match l1, l2 with
  | x :: l1', y :: l2' => r <- f x y ;; rs <- zipM f l1' l2' ;; Ok (r :: rs)
  | _, _ => Ok []
  end.

(** The constructor spaces [T H params] with the parameter at [idx],
    [idx + 1], ... replaced by the first, second, ... space of [ds]. *)
Fixpoint reconstructions (T : Ty) (H : Identifier) (params : list (Space Ty))
  (idx : nat) (ds : list (Space Ty)) : list (Space Ty) :=
  match ds with
  | [] => []
  | d :: ds' =>
      Constructor T H (assign params idx d)
      :: reconstructions T H params (S idx) ds'
  end.

(** How deep disjuncts are nested at the top of a space. *)
Fixpoint disjunctDepth (s : Space Ty) : nat :=
  match s with
  | Disjunct SP => S (fold_right (fun m d => Nat.max (disjunctDepth m) d) 0 SP)
  | _ => 0
  end.

(** A space that [simplify] returns as it is. *)
Definition fixedBySimplify (s : Space Ty) : Prop := simplify O s = s.

(** What [simplify] makes of a disjunct whose members are already simplified
    and written [L]. *)
Definition collapse (L : list (Space Ty)) : Space Ty :=
  match L with
  | [front] => front
  | _ =>
      let compatifiedSpaces := filter (fun el => negb (isEmpty el)) L in
      match compatifiedSpaces with
      | [] => Empty
      | [front] => front
      | _ => Disjunct compatifiedSpaces
      end
  end.

(** [g] returns whatever [f] returns. *)
Definition extends (A : Type) (f g : Space Ty -> Space Ty -> result A) : Prop :=
  forall (a b : Space Ty) (r : A), f a b = Ok r -> g a b = Ok r.

End Notions.

Arguments collapse {Ty} L.
Arguments extends {Ty A} f g.

(** ** Further notions used in the statements *)

Section FurtherNotions.

Variable Ty : Type.
Variable O : TypeOracle Ty.

(** A type [simplify] turns into [Empty]: it decomposes into nothing. *)
Definition uninhabited (T : Ty) : bool :=
  canDecompose O T
  && match decompose O T with
     | Some [] => true
     | _ => false
     end.

(** The spaces [simplify] has nothing to do on: no type that decomposes
    into nothing, no constructor with a parameter that is [Empty], no
    disjunct with fewer than two members or with a member that is [Empty],
    and so on in the parameters and members. *)
Fixpoint isSimplified (s : Space Ty) : bool :=
  match s with
  | Empty => true
  | TypeSpace T => negb (uninhabited T)
  | Constructor _ _ SP =>
      forallb (fun param => isSimplified param && nonEmpty param) SP
  | Disjunct SP =>
      Nat.leb 2 (List.length SP)
      && forallb (fun member => isSimplified member && nonEmpty member) SP
  | BooleanConstant _ => true
  end.

(** The spaces that are neither disjuncts nor constructors and that are
    reached from [s] through disjuncts only, from left to right. *)
Fixpoint leaves (s : Space Ty) : list (Space Ty) :=
  match s with
  | Disjunct SP => flat_map leaves SP
  | Constructor _ _ _ => []
  | _ => [s]
  end.

(** Neither a disjunct nor a constructor. *)
Definition isLeaf (s : Space Ty) : bool :=
  match s with
  | Disjunct _ | Constructor _ _ _ => false
  | _ => true
  end.

End FurtherNotions.

Arguments leaves {Ty} s.
Arguments isLeaf {Ty} s.

(** ** Switches built from a list of patterns *)

Section SwitchOver.

Variable Ty : Type.
Variable Expr : Type.
Variable Placeholder : string.

(** The switch on a subject of type [subject] with one case per pattern,
    each with that pattern as its only item, unguarded and not a default. *)
Definition switchOver (subject : Ty) (patterns : list (Pattern Ty))
  (StartLoc EndLoc : SourceLoc) : SwitchStmt Ty Expr :=
  {| getSubjectType := subject;
     getCases :=
       map (fun pattern =>
              {| getCaseLabelItems :=
                   [ {| getPattern := pattern; getGuardExpr := None;
                        isDefault := false |} ] |})
           patterns;
     getStartLoc := StartLoc;
     getEndLoc := EndLoc |}.

(** The diagnostic that asks for a default clause. *)
Definition needsDefault (Ctx : ASTContext) (Switch : SwitchStmt Ty Expr)
  : Diagnostic :=
  {| diagLoc := getStartLoc Switch;
     diagMessage :=
       if empty (getCases Switch) then empty_switch_stmt
       else non_exhaustive_switch (DiagnosticsEditorMode Ctx) true "";
     diagFixIts :=
       [(getEndLoc Switch, "default" << ": " << Placeholder << newline)] |}.

(** The diagnostics that list the missing cases whose renderings are
    [texts]: in the editor one diagnostic whose text and fix-it hold a case
    line per text, otherwise one diagnostic per text after the heading. *)
Definition reportMissing (Ctx : ASTContext) (Switch : SwitchStmt Ty Expr)
  (texts : list string) : list Diagnostic :=
  if DiagnosticsEditorMode Ctx then
    let Buffer :=
      fold_left (fun Buffer text =>
                   Buffer << "case" << " " << text << ": " << Placeholder
                          << newline)
                texts "" in
    [ {| diagLoc := getStartLoc Switch;
         diagMessage := non_exhaustive_switch true false Buffer;
         diagFixIts := [(getEndLoc Switch, Buffer)] |} ]
  else
    {| diagLoc := getStartLoc Switch;
       diagMessage := non_exhaustive_switch false false "";
       diagFixIts := [] |}
    :: map (fun text =>
              {| diagLoc := getStartLoc Switch;
                 diagMessage := missing_particular_case text;
                 diagFixIts := [] |})
           texts.

End SwitchOver.

(** ** Induction on patterns through their sub-patterns *)

Section PatternInduction.

Variable Ty : Type.
Variable P : Pattern Ty -> Prop.

Hypothesis P_Any : forall ty, P (AnyPattern ty).
Hypothesis P_Named : forall ty, P (NamedPattern ty).
Hypothesis P_Bool : forall value, P (BoolPattern value).
Hypothesis P_Typed : forall sub, P sub -> P (TypedPattern sub).
Hypothesis P_Is : P IsPattern.
Hypothesis P_Expr : P ExprPattern.
Hypothesis P_Var : forall sub, P sub -> P (VarPattern sub).
Hypothesis P_Paren : forall sub, P sub -> P (ParenPattern sub).
Hypothesis P_OptionalSome :
  forall ty sub, P sub -> P (OptionalSomePattern ty sub).
Hypothesis P_EnumElement_None :
  forall ty name, P (EnumElementPattern ty name None).
Hypothesis P_EnumElement_Some :
  forall ty name sub, P sub -> P (EnumElementPattern ty name (Some sub)).
Hypothesis P_Tuple : forall ty elts, Forall P elts -> P (TuplePattern ty elts).

Fixpoint Pattern_ind (item : Pattern Ty) : P item :=
  let all :=
    fix all (l : list (Pattern Ty)) : Forall P l :=
      match l with
      | [] => Forall_nil P
      | x :: l' => Forall_cons x (Pattern_ind x) (all l')
      end in
  match item with
  | AnyPattern ty => P_Any ty
  | NamedPattern ty => P_Named ty
  | BoolPattern value => P_Bool value
  | TypedPattern sub => P_Typed (Pattern_ind sub)
  | IsPattern => P_Is
  | ExprPattern => P_Expr
  | VarPattern sub => P_Var (Pattern_ind sub)
  | ParenPattern sub => P_Paren (Pattern_ind sub)
  | OptionalSomePattern ty sub => P_OptionalSome ty (Pattern_ind sub)
  | EnumElementPattern ty name None => P_EnumElement_None ty name
  | EnumElementPattern ty name (Some sub) =>
      P_EnumElement_Some ty name (Pattern_ind sub)
  | TuplePattern ty elts => P_Tuple ty (all elts)
  end.

End PatternInduction.

(** ** Subtracting patterns from a decomposition *)

Section Striking.

Variable Ty : Type.

(** Whether the pattern space [p], a constructor without parameters or a
    boolean constant, names the member [d] of a decomposition. *)
Definition names (p d : Space Ty) : bool :=
  match p, d with
  | Constructor _ name [], Constructor _ H _ => String.eqb H name
  | BooleanConstant c, BooleanConstant b => Bool.eqb b c
  | _, _ => false
  end.

(** The member [d] after the subtraction of the pattern spaces [ps]. *)
Definition strike (ps : list (Space Ty)) (d : Space Ty) : Space Ty :=
  if existsb (fun p => names p d) ps then Empty else d.

(** The constructor space of an enum element named without its payload,
    and the pattern that projects to it. *)
Definition headOnly (T : Ty) (name : Identifier) : Space Ty :=
  Constructor T name [].

Definition headOnlyPattern (T : Ty) (name : Identifier) : Pattern Ty :=
  EnumElementPattern T name None.

(** A constructor space or a boolean constant. *)
Definition isPatternLeaf (p : Space Ty) : bool :=
  match p with
  | Constructor _ _ _ | BooleanConstant _ => true
  | _ => false
  end.

Variable O : TypeOracle Ty.

(** The subtraction of the pattern space [p] from the member [d] answers
    [Empty] when [p] names [d] and [d] otherwise, at every budget. *)
Definition struckBy (p d : Space Ty) : Prop :=
  forall m : nat, minus O (S m) d p = Ok (strike [p] d).

End Striking.

Arguments isPatternLeaf {Ty} p.

(** The renderings of the boolean constants that do not occur in [bs]. *)
Definition missingConstants (bs : list bool) : list string :=
  (if existsb (Bool.eqb true) bs then [] else ["true"])
  ++ (if existsb (Bool.eqb false) bs then [] else ["false"]).

Section EnumReportNotions.

Variable Ty : Type.

(** How a constructor space without parameters is shown: its head after a
    dot, or nothing for the empty head. *)
Definition caseText (name : Identifier) : string :=
  if String.eqb name "" then "" else "." << name.

(** The renderings of the elements that [idents] does not name, in the
    order of their declaration. *)
Definition missingElements (elements : list (EnumElementDecl Ty))
  (idents : list Identifier) : list string :=
  map (fun eed => caseText (eedName eed))
    (filter (fun eed => negb (existsb (String.eqb (eedName eed)) idents))
       elements).

(** An element with an interface type and without payload. *)
Definition plainElement (eed : EnumElementDecl Ty) : bool :=
  hasInterfaceType eed
  && match eedTy eed with
     | None => true
     | Some _ => false
     end.

End EnumReportNotions.

Section ShownAs.

Variable Ty : Type.
Variable O : TypeOracle Ty.

(** [m] is shown as [text], whatever the buffer holds, and is the one
    space [diagnoseMissingCases] shows for it. *)
Definition shownAs (fuel : nat) (m : Space Ty) (text : string) : Prop :=
  flatsOf m = Ok [m]
  /\ forall buffer : string, show O fuel m buffer true = Ok (buffer << text).

End ShownAs.

(** ** What a subtraction leaves of the subject's space *)

Section Residuals.

Variable Ty : Type.
Variable O : TypeOracle Ty.

(** The spaces a run of subtractions from the space of [subject] passes
    through: the space itself, constructor spaces, boolean constants when
    the subject is boolean, [Empty], and disjuncts of these. *)
#[warnings="-register-all"]
Inductive residual (subject : Ty) : Space Ty -> Prop :=
| residual_Empty : residual subject Empty
| residual_Type : residual subject (TypeSpace subject)
| residual_Constructor :
    forall T H SP, residual subject (Constructor T H SP)
| residual_BooleanConstant :
    forall C, isBool O subject = true -> residual subject (BooleanConstant C)
| residual_Disjunct :
    forall SP, Forall (residual subject) SP -> residual subject (Disjunct SP).

(** The spaces made of [Empty] and disjuncts only. *)
#[warnings="-register-all"]
Inductive void : Space Ty -> Prop :=
| void_Empty : void Empty
| void_Disjunct : forall SP, Forall void SP -> void (Disjunct SP).

(** A space a pattern of a well-typed case projects to: not a disjunct,
    and the subject's type when it is the space of a type. *)
Definition patternSpace (subject : Ty) (p : Space Ty) : Prop :=
  match p with
  | Disjunct _ => False
  | TypeSpace T => T = subject
  | _ => True
  end.

End Residuals.

(** ** A universe with one enum without payloads *)

(** The only type is [enum Direction { case north, east, south, west }]. *)
Definition directionElements : list (EnumElementDecl unit) :=
  map (fun name =>
         {| eedName := name; hasInterfaceType := true; eedTy := None |})
      ["north"; "east"; "south"; "west"].

Definition directionOracle : TypeOracle unit := {|
  isEqual := fun _ _ => true;
  isBool := fun _ => false;
  getEnumOrBoundGenericEnum := fun _ => Some directionElements;
  getAsTupleType := fun _ => None;
  getAsParenType := fun _ => None;
  printType := fun _ => "Direction"
|}.

(** ** The size of a space *)

Section Sizes.

Variable Ty : Type.

(** The number of nodes of a space. *)
Fixpoint size (s : Space Ty) : nat :=
  match s with
  | Constructor _ _ SP | Disjunct SP => S (list_sum (map size SP))
  | _ => 1
  end.

(** A budget that lets [show] finish on [s]: normalizing a disjunct costs
    one more call, on a space that is no larger. *)
Definition showBudget (s : Space Ty) (normalize : bool) : nat :=
  2 * size s + (if normalize then 1 else 0).

End Sizes.

(** ** The spaces shown for an uncovered space *)

Section ShownFor.

Variable Ty : Type.

(** The leaves of the space, or the space itself when it has none. *)
Definition shownFor (s : Space Ty) : list (Space Ty) :=
  if empty (leaves s) then [s] else leaves s.

End ShownFor.

(** ** A space inside a disjunct *)

Section Within.

Variable Ty : Type.

(** [s] is [t], or a member of the disjunct [t], or inside such a member. *)
#[warnings="-register-all"]
Inductive within (s : Space Ty) : Space Ty -> Prop :=
| within_itself : within s s
| within_member :
    forall (member : Space Ty) (SP : list (Space Ty)),
      In member SP -> within s member -> within s (Disjunct SP).

End Within.

(** ** The form of a report *)

Section ReportForm.

Variable Ty : Type.
Variable Expr : Type.

(** A diagnostic that is not the note on one missing case. *)
Definition isHeading (d : Diagnostic) : bool :=
  match diagMessage d with
  | missing_particular_case _ => false
  | _ => true
  end.

(** A note on one missing case, at the start of the switch and without
    fix-it. *)
Definition isNote (Switch : SwitchStmt Ty Expr) (d : Diagnostic) : bool :=
  negb (isHeading d)
  && Nat.eqb (diagLoc d) (getStartLoc Switch)
  && empty (diagFixIts d).

(** Nothing, or a heading at the start of the switch whose fix-its insert
    at its end, followed by notes; no notes in the editor. *)
Definition wellFormedReport (Switch : SwitchStmt Ty Expr) (InEditor : bool)
  (diags : list Diagnostic) : bool :=
  match diags with
  | [] => true
  | d :: notes =>
      isHeading d
      && Nat.eqb (diagLoc d) (getStartLoc Switch)
      && forallb (fun fixIt => Nat.eqb (fst fixIt) (getEndLoc Switch))
           (diagFixIts d)
      && forallb (isNote Switch) notes
      && (negb InEditor || empty notes)
  end.

End ReportForm.

(** * Properties *)

(** ** The packed pair of kinds *)

Lemma PairSwitch_range :
  forall pair1 pair2 : SpaceKind,
    (0 <= PairSwitch pair1 pair2 < 2 ^ 16)%Z.
Proof.
  intros [] []; vm_compute; split; congruence.
Qed.

Lemma PairSwitch_injective :
  forall pair1 pair2 pair1' pair2' : SpaceKind,
    PairSwitch pair1 pair2 = PairSwitch pair1' pair2' ->
    pair1 = pair1' /\ pair2 = pair2'.
Proof.
  intros [] [] [] []; vm_compute; intros Heq;
    first [discriminate Heq | split; reflexivity].
Qed.

(** ** The subspace test on a type against a boolean constant *)

Section SubspaceProperties.

Variable Ty : Type.
Variable O : TypeOracle Ty.

(** C10: [isSubspace] of a type space in a boolean constant returns [false]
    for every type, the boolean type included, and whatever the type queries
    answer: one unit of budget suffices, so no recursive call, and hence no
    subspace test on a decomposition, is made. *)
Theorem isSubspace_Type_BooleanConstant :
  forall (fuel : nat) (T : Ty) (b : bool),
    isSubspace O (S fuel) (TypeSpace T) (BooleanConstant b) = Ok false.
Proof.
  intros fuel T b. reflexivity.
Qed.

End SubspaceProperties.

(** ** Flattening a constructor space *)

Section FlattenProperties.

Variable Ty : Type.

Lemma flattenSkips_always : forall param : Space Ty, flattenSkips param = true.
Proof.
  intros param. unfold flattenSkips. destruct param; reflexivity.
Qed.

(** C4: the test in front of [continue] holds of every parameter, so
    [flatten] on a constructor space skips every parameter and leaves the
    list of flattened spaces as it found it. *)
Theorem flatten_Constructor_skips_every_child :
  forall (T : Ty) (H : Identifier) (SP flats : list (Space Ty)),
    Forall (fun param => flattenSkips param = true) SP
    /\ flatten (Constructor T H SP) flats = Ok flats.
Proof.
  intros T H SP flats. split.
  - apply Forall_forall. intros param _. apply flattenSkips_always.
  - simpl. generalize 0. induction SP as [|param SP IH]; intros i.
    + reflexivity.
    + rewrite flattenSkips_always. apply IH.
Qed.

End FlattenProperties.

(** ** Decomposing an enum *)

Section DecomposeProperties.

Variable Ty : Type.
Variable O : TypeOracle Ty.

Lemma canDecompose_decompose :
  forall tp : Ty, canDecompose O tp = true <-> decompose O tp <> None.
Proof.
  intros tp. unfold canDecompose, decompose.
  destruct (isBool O tp), (getEnumOrBoundGenericEnum O tp),
    (getAsTupleType O tp); simpl; split; congruence.
Qed.

(** C9: on an enum type, [decompose] yields one space per declared element,
    in order; an element without interface type yields [Empty], and every
    other element yields its constructor space. *)
Theorem decompose_enum_element_without_interface_type :
  forall (tp : Ty) (children : list (EnumElementDecl Ty)),
    isBool O tp = false ->
    getEnumOrBoundGenericEnum O tp = Some children ->
    exists arr : list (Space Ty),
      decompose O tp = Some arr
      /\ List.length arr = List.length children
      /\ forall (i : nat) (eed : EnumElementDecl Ty),
           nth_error children i = Some eed ->
           (hasInterfaceType eed = false -> nth_error arr i = Some Empty)
           /\ (hasInterfaceType eed = true ->
               exists payload,
                 nth_error arr i
                 = Some (Constructor tp (eedName eed) payload)).
Proof.
  intros tp children Hbool Henum.
  exists (map (decomposeElement O tp) children). split; [|split].
  - unfold decompose. rewrite Hbool, Henum. reflexivity.
  - apply length_map.
  - intros i eed Hi. rewrite nth_error_map, Hi. simpl.
    unfold decomposeElement. split; intros Hty; rewrite Hty; simpl.
    + reflexivity.
    + eexists. reflexivity.
Qed.

End DecomposeProperties.

Lemma decompose_enum_element_without_interface_type_witness :
  isBool sampleOracle TBroken = false
  /\ getEnumOrBoundGenericEnum sampleOracle TBroken
     = Some [ {| eedName := "a"; hasInterfaceType := false; eedTy := None |};
              {| eedName := "b"; hasInterfaceType := true; eedTy := None |} ]
  /\ exists arr : list (Space SampleTy),
       decompose sampleOracle TBroken = Some arr
       /\ List.length arr = 2
       /\ nth_error arr 0 = Some Empty
       /\ exists payload,
            nth_error arr 1 = Some (Constructor TBroken "b" payload).
Proof.
  split; [reflexivity|]. split; [reflexivity|].
  destruct (@decompose_enum_element_without_interface_type
              SampleTy sampleOracle TBroken
              [ {| eedName := "a"; hasInterfaceType := false;
                   eedTy := None |};
                {| eedName := "b"; hasInterfaceType := true;
                   eedTy := None |} ]
              eq_refl eq_refl) as [arr [Harr [Hlen Hnth]]].
  exists arr. split; [exact Harr|]. split; [exact Hlen|]. split.
  - exact (proj1 (Hnth 0 _ eq_refl) eq_refl).
  - exact (proj2 (Hnth 1 _ eq_refl) eq_refl).
Defined.

(** ** Simplification *)

Section SimplifyProperties.

Variable Ty : Type.
Variable O : TypeOracle Ty.

Lemma map_simplify_fixed :
  forall l : list (Space Ty),
    Forall (fixedBySimplify O) l -> map (simplify O) l = l.
Proof.
  induction 1 as [|x l Hx _ IH]; simpl.
  - reflexivity.
  - rewrite Hx, IH. reflexivity.
Qed.

Lemma simplified_members_fixed :
  forall SP : list (Space Ty),
    Forall (fun s => simplify O (simplify O s) = simplify O s) SP ->
    Forall (fixedBySimplify O) (map (simplify O) SP).
Proof.
  induction 1 as [|x l Hx _ IH]; simpl; constructor; assumption.
Qed.

Lemma filter_fixed :
  forall (keep : Space Ty -> bool) (l : list (Space Ty)),
    Forall (fixedBySimplify O) l -> Forall (fixedBySimplify O) (filter keep l).
Proof.
  intros keep l Hl. apply Forall_forall. intros x Hx.
  apply filter_In in Hx. destruct Hx as [Hx _].
  exact (proj1 (Forall_forall _ _) Hl x Hx).
Qed.

Lemma filter_filter_same :
  forall (A : Type) (keep : A -> bool) (l : list A),
    filter keep (filter keep l) = filter keep l.
Proof.
  intros A keep l. induction l as [|x l IH]; simpl.
  - reflexivity.
  - destruct (keep x) eqn:Hk; simpl.
    + rewrite Hk, IH. reflexivity.
    + exact IH.
Qed.

Lemma simplify_Constructor_fixed :
  forall (T : Ty) (H : Identifier) (L : list (Space Ty)),
    Forall (fixedBySimplify O) L ->
    existsb isEmpty L = false ->
    simplify O (Constructor T H L) = Constructor T H L.
Proof.
  intros T H L HL Hne. destruct L as [|x L]; [reflexivity|].
  change (simplify O (Constructor T H (x :: L)))
    with (if existsb isEmpty (map (simplify O) (x :: L)) then Empty
          else Constructor T H (map (simplify O) (x :: L))).
  rewrite (map_simplify_fixed HL), Hne. reflexivity.
Qed.

Lemma simplify_Disjunct_collapse :
  forall SP : list (Space Ty),
    simplify O (Disjunct SP) = collapse (map (simplify O) SP).
Proof.
  intros SP. reflexivity.
Qed.

Lemma collapse_fixed :
  forall L : list (Space Ty),
    Forall (fixedBySimplify O) L -> fixedBySimplify O (collapse L).
Proof.
  intros L HL. unfold collapse.
  assert (HC := filter_fixed (fun el => negb (isEmpty el)) HL).
  assert (HF := filter_filter_same (fun el => negb (isEmpty el)) L).
  destruct L as [|a [|b L]].
  - reflexivity.
  - inversion HL; assumption.
  - remember (a :: b :: L) as L0 eqn:HL0. clear HL0.
    destruct (filter (fun el => negb (isEmpty el)) L0) as [|c [|d C]].
    + reflexivity.
    + inversion HC; assumption.
    + unfold fixedBySimplify. rewrite simplify_Disjunct_collapse.
      rewrite (map_simplify_fixed HC). unfold collapse. rewrite HF.
      reflexivity.
Qed.

(** C7: [simplify] is idempotent. *)
Theorem simplify_idempotent :
  forall s : Space Ty, simplify O (simplify O s) = simplify O s.
Proof.
  induction s as [|T|T H SP IH|SP IH|C] using Space_ind.
  - reflexivity.
  - simpl. destruct (canDecompose O T) eqn:Hcan.
    + destruct (decompose O T) as [[|x l]|] eqn:Hdec; simpl;
        rewrite ?Hcan, ?Hdec; reflexivity.
    + simpl. rewrite Hcan. reflexivity.
  - destruct SP as [|x SP]; [reflexivity|].
    change (simplify O (Constructor T H (x :: SP)))
      with (if existsb isEmpty (map (simplify O) (x :: SP)) then Empty
            else Constructor T H (map (simplify O) (x :: SP))).
    destruct (existsb isEmpty (map (simplify O) (x :: SP))) eqn:Hex.
    + reflexivity.
    + apply simplify_Constructor_fixed; [|exact Hex].
      apply simplified_members_fixed. exact IH.
  - rewrite simplify_Disjunct_collapse.
    apply collapse_fixed. apply simplified_members_fixed. exact IH.
  - reflexivity.
Qed.

End SimplifyProperties.

(** ** The driver *)

Section DriverProperties.

Variable Ty : Type.
Variable Expr : Type.
Variable Placeholder : string.
Variable O : TypeOracle Ty.

(** C8: with [limitedChecking], a switch without cases gets the
    empty-switch diagnostic (with the fix-it inserting a default clause) and
    nothing else, and a switch with at least one case gets no diagnostic. *)
Theorem checkExhaustiveness_limitedChecking :
  forall (fuel : nat) (Ctx : ASTContext) (subject : Ty)
         (StartLoc EndLoc : SourceLoc),
    checkExhaustiveness (Expr := Expr) Placeholder O fuel Ctx
      {| getSubjectType := subject; getCases := [];
         getStartLoc := StartLoc; getEndLoc := EndLoc |} true
    = Ok [ {| diagLoc := StartLoc; diagMessage := empty_switch_stmt;
              diagFixIts :=
                [(EndLoc, "default" << ": " << Placeholder << newline)] |} ]
    /\ forall (caseBlock : CaseStmt Ty Expr) (cases : list (CaseStmt Ty Expr)),
         checkExhaustiveness Placeholder O fuel Ctx
           {| getSubjectType := subject; getCases := caseBlock :: cases;
              getStartLoc := StartLoc; getEndLoc := EndLoc |} true
         = Ok [].
Proof.
  intros fuel Ctx subject StartLoc EndLoc. split.
  - reflexivity.
  - intros caseBlock cases. reflexivity.
Qed.

Lemma projectCaseLabelItems_spec :
  forall (items : list (CaseLabelItem Ty Expr)) (spaces : list (Space Ty)),
    projectCaseLabelItems O items spaces
    = if existsb (@unguardedDefault Ty Expr) items then None
      else Some (spaces ++ map (projectItem O) (filter (@unguarded Ty Expr) items)).
Proof.
  induction items as [|caseItem items IH]; intros spaces; simpl.
  - rewrite app_nil_r. reflexivity.
  - rewrite !IH. unfold unguardedDefault, unguarded.
    destruct (isSome (getGuardExpr caseItem)); simpl; [reflexivity|].
    destruct (isDefault caseItem); simpl; [reflexivity|].
    rewrite <- app_assoc. reflexivity.
Qed.

Lemma projectCases_spec :
  forall (cases : list (CaseStmt Ty Expr)) (spaces : list (Space Ty)),
    projectCases O cases spaces
    = let items := flat_map (@getCaseLabelItems Ty Expr) cases in
      if existsb (@unguardedDefault Ty Expr) items then None
      else Some (spaces ++ map (projectItem O) (filter (@unguarded Ty Expr) items)).
Proof.
  induction cases as [|caseBlock cases IH]; intros spaces; simpl.
  - rewrite app_nil_r. reflexivity.
  - rewrite projectCaseLabelItems_spec, existsb_app, filter_app, map_app.
    destruct (existsb (@unguardedDefault Ty Expr) (getCaseLabelItems caseBlock)).
    + reflexivity.
    + simpl. rewrite IH. simpl. rewrite app_assoc. reflexivity.
Qed.

Lemma projectCaseLabelItems_filter_unguarded :
  forall (items : list (CaseLabelItem Ty Expr)) (spaces : list (Space Ty)),
    projectCaseLabelItems O (filter (@unguarded Ty Expr) items) spaces
    = projectCaseLabelItems O items spaces.
Proof.
  induction items as [|caseItem items IH]; intros spaces; simpl.
  - reflexivity.
  - destruct (isSome (getGuardExpr caseItem)) eqn:Hg;
      unfold unguarded at 1; rewrite Hg; simpl.
    + apply IH.
    + rewrite Hg. destruct (isDefault caseItem); [reflexivity|apply IH].
Qed.

Lemma projectCases_withoutGuardedItems :
  forall (Switch : SwitchStmt Ty Expr) (spaces : list (Space Ty)),
    projectCases O (getCases (withoutGuardedItems Switch)) spaces
    = projectCases O (getCases Switch) spaces.
Proof.
  intros Switch. simpl.
  induction (getCases Switch) as [|caseBlock cases IH]; intros spaces; simpl.
  - reflexivity.
  - rewrite projectCaseLabelItems_filter_unguarded.
    destruct (projectCaseLabelItems O (getCaseLabelItems caseBlock) spaces);
      [apply IH|reflexivity].
Qed.

Lemma diagnoseMissingCases_withoutGuardedItems :
  forall (fuel : nat) (Ctx : ASTContext) (Switch : SwitchStmt Ty Expr)
         (JustNeedsDefault : bool) (uncovered : Space Ty),
    diagnoseMissingCases Placeholder O fuel Ctx (withoutGuardedItems Switch)
      JustNeedsDefault uncovered
    = diagnoseMissingCases Placeholder O fuel Ctx Switch
        JustNeedsDefault uncovered.
Proof.
  intros fuel Ctx Switch JustNeedsDefault uncovered.
  unfold diagnoseMissingCases. simpl.
  destruct (getCases Switch); reflexivity.
Qed.

(** C5: without [limitedChecking], the guarded case-label items contribute
    nothing (the check runs as on the switch with those items deleted, and
    the covered spaces are the projections of the unguarded items, in
    order), and a switch with an unguarded default item gets no diagnostic,
    whatever the budget and whatever else it contains. *)
Theorem checkExhaustiveness_guards_and_default :
  forall (fuel : nat) (Ctx : ASTContext) (Switch : SwitchStmt Ty Expr),
    checkExhaustiveness Placeholder O fuel Ctx Switch false
    = checkExhaustiveness Placeholder O fuel Ctx (withoutGuardedItems Switch)
        false
    /\ projectCases O (getCases Switch) []
       = (if existsb (@unguardedDefault Ty Expr) (allCaseLabelItems Switch)
          then None
          else Some (map (projectItem O)
                       (filter (@unguarded Ty Expr)
                          (allCaseLabelItems Switch))))
    /\ (existsb (@unguardedDefault Ty Expr) (allCaseLabelItems Switch) = true ->
        checkExhaustiveness Placeholder O fuel Ctx Switch false = Ok []).
Proof.
  intros fuel Ctx Switch. split; [|split].
  - unfold checkExhaustiveness.
    rewrite projectCases_withoutGuardedItems.
    destruct (projectCases O (getCases Switch) []) as [spaces|];
      [|reflexivity].
    change (getSubjectType (withoutGuardedItems Switch))
      with (getSubjectType Switch).
    destruct (minus O fuel (TypeSpace (getSubjectType Switch))
                (Disjunct spaces)) as [difference| |];
      [|reflexivity|reflexivity].
    cbv beta iota zeta delta [bind].
    destruct (isEmpty (simplify O difference)); [reflexivity|].
    destruct (simplify O difference) as [|T|T H SP|SP|C];
      try (destruct (canDecompose O T); [destruct (decomposeM O T)|]);
      cbv beta iota zeta delta [bind];
      rewrite ?diagnoseMissingCases_withoutGuardedItems;
      reflexivity.
  - rewrite projectCases_spec. reflexivity.
  - intros Hdef. unfold checkExhaustiveness.
    rewrite projectCases_spec. simpl.
    unfold allCaseLabelItems in Hdef. rewrite Hdef. reflexivity.
Qed.

End DriverProperties.

(** ** Identity laws *)

Section IdentityLaws.

Variable Ty : Type.
Variable O : TypeOracle Ty.

Lemma simplify_Disjunct_examineDecomp :
  forall SP : list (Space Ty),
    simplify O (Disjunct SP)
    = examineDecomp (filter nonEmpty (map (simplify O) SP)).
Proof.
  intros SP. rewrite simplify_Disjunct_collapse. unfold collapse.
  destruct (map (simplify O) SP) as [|x [|y L]]; try reflexivity.
  destruct x; reflexivity.
Qed.

Lemma filter_nonEmpty_map_simplify :
  forall l : list (Space Ty),
    filter nonEmpty (map (simplify O) (filter nonEmpty l))
    = filter nonEmpty (map (simplify O) l).
Proof.
  induction l as [|x l IH]; simpl.
  - reflexivity.
  - destruct x; simpl; rewrite ?IH; reflexivity.
Qed.

Lemma simplify_examineDecomp_filter :
  forall rs : list (Space Ty),
    simplify O (examineDecomp (filter nonEmpty rs))
    = examineDecomp (filter nonEmpty (map (simplify O) rs)).
Proof.
  intros rs. rewrite <- filter_nonEmpty_map_simplify.
  destruct (filter nonEmpty rs) as [|x [|y F]].
  - reflexivity.
  - simpl. destruct (simplify O x); reflexivity.
  - change (examineDecomp (x :: y :: F)) with (Disjunct (x :: y :: F)).
    apply simplify_Disjunct_examineDecomp.
Qed.

Lemma fold_max_bound :
  forall (SP : list (Space Ty)) (m : Space Ty),
    In m SP ->
    disjunctDepth m
    <= fold_right (fun m d => Nat.max (disjunctDepth m) d) 0 SP.
Proof.
  induction SP as [|x SP IH]; intros m Hin; simpl in *.
  - contradiction.
  - destruct Hin as [->|Hin]; [lia|]. specialize (IH m Hin). lia.
Qed.

Lemma mapM_intersect_members :
  forall (subject : Ty) (n : nat) (SP : list (Space Ty)),
    Forall (fun m =>
              exists r, intersect O n m (TypeSpace subject) = Ok r
                        /\ simplify O r = simplify O m) SP ->
    exists rs,
      mapM (fun m => intersect O n m (TypeSpace subject)) SP = Ok rs
      /\ map (simplify O) rs = map (simplify O) SP.
Proof.
  intros subject n SP H. induction H as [|m SP [r [Hr Hs]] _ [rs [Hrs Hmap]]].
  - exists []. split; reflexivity.
  - exists (r :: rs). simpl. rewrite Hr. simpl. rewrite Hrs. simpl.
    rewrite Hs, Hmap. split; reflexivity.
Qed.

Lemma intersect_subject_type :
  forall subject : Ty,
    isEqual O subject subject = true ->
    forall s : Space Ty,
      SpaceOver O subject s ->
      forall fuel : nat,
        disjunctDepth s < fuel ->
        exists r, intersect O fuel s (TypeSpace subject) = Ok r
                  /\ simplify O r = simplify O s.
Proof.
  intros subject Hrefl.
  induction s as [|T|T H SP _|SP IH|C] using Space_ind;
    intros Hover [|n] Hfuel; try lia.
  - exists Empty. split; reflexivity.
  - assert (T = subject) as -> by (inversion Hover; reflexivity).
    exists (TypeSpace subject). simpl.
    rewrite Hrefl. split; reflexivity.
  - exists (Constructor T H SP). split; reflexivity.
  - inversion Hover as [| | |SP' Hmembers|]; subst.
    assert (Hall : Forall (fun m =>
                exists r, intersect O n m (TypeSpace subject) = Ok r
                          /\ simplify O r = simplify O m) SP).
    { apply Forall_forall. intros m Hin.
      apply (proj1 (Forall_forall _ _) IH m Hin).
      - exact (proj1 (Forall_forall _ _) Hmembers m Hin).
      - pose proof (fold_max_bound SP m Hin) as Hb. simpl in Hfuel. lia. }
    destruct (@mapM_intersect_members subject n SP Hall) as [rs [Hrs Hmap]].
    exists (examineDecomp (filter nonEmpty rs)). split.
    + simpl. rewrite Hrs. reflexivity.
    + rewrite simplify_examineDecomp_filter, simplify_Disjunct_examineDecomp.
      rewrite Hmap. reflexivity.
  - inversion Hover as [| | | |C' Hbool]; subst.
    exists (BooleanConstant C). simpl. rewrite Hbool. split; reflexivity.
Qed.

(** C6: for a space [s] over the subject type, intersecting [s] with the
    space of the subject type returns a space that simplifies to what [s]
    simplifies to; subtracting [Empty] from [s] returns [s]; subtracting [s]
    from [Empty] returns [Empty]. *)
Theorem identity_laws :
  forall subject : Ty,
    isEqual O subject subject = true ->
    (forall (s : Space Ty) (fuel : nat),
        SpaceOver O subject s ->
        disjunctDepth s < fuel ->
        exists r, intersect O fuel s (TypeSpace subject) = Ok r
                  /\ simplify O r = simplify O s)
    /\ (forall (s : Space Ty) (fuel : nat),
           minus O (S fuel) s Empty = Ok s)
    /\ (forall (s : Space Ty) (fuel : nat),
           minus O (S fuel) Empty s = Ok Empty).
Proof.
  intros subject Hrefl. split; [|split].
  - intros s fuel Hover Hfuel.
    exact (@intersect_subject_type subject Hrefl s Hover fuel Hfuel).
  - intros s fuel. destruct s; reflexivity.
  - intros s fuel. reflexivity.
Qed.

End IdentityLaws.

(** ** Subtracting a constructor space from a constructor space *)

Section ConstructorSubtraction.

Variable Ty : Type.
Variable O : TypeOracle Ty.

Variable inter : Space Ty -> Space Ty -> result (Space Ty).
Variable sub : Space Ty -> Space Ty -> result bool.
Variable diff : Space Ty -> Space Ty -> result (Space Ty).
Variable T : Ty.
Variable H : Identifier.
Variable params : list (Space Ty).

(** The parameter loop when every run on a pair of parameters returns. *)
Lemma minusParams_returns :
  forall (l1 l2 : list (Space Ty)) (xs : list (Space Ty)) (ss : list bool)
         (ds : list (Space Ty)) (idx : nat) (constrSpaces : list (Space Ty))
         (foundBad : bool),
    zipM inter l1 l2 = Ok xs ->
    zipM sub l1 l2 = Ok ss ->
    zipM diff l1 l2 = Ok ds ->
    minusParams O inter sub diff T H params l1 l2 idx constrSpaces foundBad
    = Ok (if existsb isEmpty (map (simplify O) xs) then None
          else Some (constrSpaces ++ reconstructions T H params idx ds,
                     foundBad || negb (forallb (fun covered => covered) ss))).
Proof.
  induction l1 as [|s1 l1 IH]; intros [|s2 l2] xs ss ds idx acc fb Hx Hs Hd;
    simpl in *;
    try (injection Hx as <-; injection Hs as <-; injection Hd as <-; simpl;
         rewrite app_nil_r, orb_false_r; reflexivity).
  destruct (inter s1 s2) as [x| |]; simpl in Hx; try discriminate.
  destruct (zipM inter l1 l2) as [xs'| |] eqn:Hxs; simpl in Hx;
    try discriminate.
  destruct (sub s1 s2) as [c| |]; simpl in Hs; try discriminate.
  destruct (zipM sub l1 l2) as [ss'| |] eqn:Hss; simpl in Hs;
    try discriminate.
  destruct (diff s1 s2) as [d| |]; simpl in Hd; try discriminate.
  destruct (zipM diff l1 l2) as [ds'| |] eqn:Hds; simpl in Hd;
    try discriminate.
  injection Hx as <-. injection Hs as <-. injection Hd as <-. simpl.
  destruct (isEmpty (simplify O x)); simpl; [reflexivity|].
  rewrite (IH l2 xs' ss' ds' (S idx) _ _ Hxs Hss Hds).
  destruct (existsb isEmpty (map (simplify O) xs')); [reflexivity|].
  rewrite <- app_assoc. simpl.
  destruct c, fb; reflexivity.
Qed.

(** The parameter loop returns early only at a pair of parameters whose
    intersection simplifies to [Empty]; otherwise it has visited every
    pair. *)
Lemma minusParams_inversion :
  forall (l1 l2 : list (Space Ty)) (idx : nat)
         (constrSpaces : list (Space Ty)) (foundBad : bool)
         (r : option (list (Space Ty) * bool)),
    minusParams O inter sub diff T H params l1 l2 idx constrSpaces foundBad
    = Ok r ->
    match r with
    | None =>
        exists (i : nat) (s1 s2 x : Space Ty),
          nth_error l1 i = Some s1 /\ nth_error l2 i = Some s2
          /\ inter s1 s2 = Ok x /\ isEmpty (simplify O x) = true
    | Some _ =>
        exists (xs : list (Space Ty)) (ss : list bool) (ds : list (Space Ty)),
          zipM inter l1 l2 = Ok xs /\ zipM sub l1 l2 = Ok ss
          /\ zipM diff l1 l2 = Ok ds
          /\ existsb isEmpty (map (simplify O) xs) = false
    end.
Proof.
  induction l1 as [|s1 l1 IH]; intros [|s2 l2] idx acc fb r Hr; simpl in Hr;
    try (injection Hr as <-; exists [], [], []; repeat split; reflexivity).
  destruct (inter s1 s2) as [x| |] eqn:Hx; simpl in Hr; try discriminate.
  destruct (isEmpty (simplify O x)) eqn:Hex.
  - injection Hr as <-. exists 0, s1, s2, x. repeat split; assumption.
  - destruct (sub s1 s2) as [c| |] eqn:Hc; simpl in Hr; try discriminate.
    destruct (diff s1 s2) as [d| |] eqn:Hd; simpl in Hr; try discriminate.
    specialize (IH _ _ _ _ _ Hr). destruct r as [p|].
    + destruct IH as [xs [ss [ds [Hxs [Hss [Hds Hne]]]]]].
      exists (x :: xs), (c :: ss), (d :: ds). simpl.
      rewrite Hx, Hc, Hd, Hxs, Hss, Hds. simpl. rewrite Hex, Hne.
      repeat split; reflexivity.
    + destruct IH as [i [a1 [a2 [y [H1 [H2 [Hy Hey]]]]]]].
      exists (S i), a1, a2, y. repeat split; assumption.
Qed.

End ConstructorSubtraction.

Section ConstructorSubtractionResult.

Variable Ty : Type.
Variable O : TypeOracle Ty.

Lemma zipM_length :
  forall (A : Type) (f : Space Ty -> Space Ty -> result A)
         (l1 l2 : list (Space Ty)) (rs : list A),
    zipM f l1 l2 = Ok rs ->
    List.length rs = Nat.min (List.length l1) (List.length l2).
Proof.
  intros A f. induction l1 as [|x l1 IH]; intros [|y l2] rs Hrs; simpl in *;
    try (injection Hrs as <-; reflexivity).
  destruct (f x y); simpl in Hrs; try discriminate.
  destruct (zipM f l1 l2) eqn:Hz; simpl in Hrs; try discriminate.
  injection Hrs as <-. simpl. rewrite (IH l2 _ Hz). reflexivity.
Qed.

Lemma zipM_nth_error :
  forall (A : Type) (f : Space Ty -> Space Ty -> result A)
         (l1 l2 : list (Space Ty)) (rs : list A) (i : nat)
         (x y : Space Ty),
    zipM f l1 l2 = Ok rs ->
    nth_error l1 i = Some x ->
    nth_error l2 i = Some y ->
    exists r, f x y = Ok r /\ nth_error rs i = Some r.
Proof.
  intros A f. induction l1 as [|x1 l1 IH]; intros [|y1 l2] rs i x y Hrs Hx Hy;
    try (destruct i; discriminate).
  simpl in Hrs.
  destruct (f x1 y1) as [r1| |] eqn:Hf; simpl in Hrs; try discriminate.
  destruct (zipM f l1 l2) as [rs'| |] eqn:Hz; simpl in Hrs; try discriminate.
  injection Hrs as <-. destruct i as [|i]; simpl in *.
  - injection Hx as <-. injection Hy as <-. exists r1. split; [exact Hf|reflexivity].
  - exact (IH l2 rs' i x y Hz Hx Hy).
Qed.

Lemma existsb_isEmpty_nth_error :
  forall (xs : list (Space Ty)) (i : nat) (x : Space Ty),
    nth_error xs i = Some x ->
    isEmpty (simplify O x) = true ->
    existsb isEmpty (map (simplify O) xs) = true.
Proof.
  induction xs as [|x0 xs IH]; intros [|i] x Hx He; simpl in *;
    try discriminate.
  - injection Hx as ->. rewrite He. reflexivity.
  - rewrite (IH i x Hx He). apply orb_true_r.
Qed.

Lemma reconstructions_length :
  forall (T : Ty) (H : Identifier) (params ds : list (Space Ty)) (idx : nat),
    List.length (reconstructions T H params idx ds) = List.length ds.
Proof.
  intros T H params ds. induction ds as [|d ds IH]; intros idx; simpl.
  - reflexivity.
  - rewrite IH. reflexivity.
Qed.

Lemma reconstructions_nth_error :
  forall (T : Ty) (H : Identifier) (params ds : list (Space Ty))
         (idx i : nat) (d : Space Ty),
    nth_error ds i = Some d ->
    nth_error (reconstructions T H params idx ds) i
    = Some (Constructor T H (assign params (idx + i) d)).
Proof.
  intros T H params ds. induction ds as [|d0 ds IH]; intros idx [|i] d Hd;
    simpl in *; try discriminate.
  - injection Hd as ->. rewrite Nat.add_0_r. reflexivity.
  - rewrite (IH (S idx) i d Hd). simpl. rewrite Nat.add_succ_r. reflexivity.
Qed.

(** [assign] replaces the element at an index in range and nothing else. *)
Lemma assign_nth_error :
  forall (l : list (Space Ty)) (idx : nat) (v : Space Ty) (j : nat),
    idx < List.length l ->
    nth_error (assign l idx v) j
    = if Nat.eqb j idx then Some v else nth_error l j.
Proof.
  induction l as [|x l IH]; intros [|idx] v [|j] Hlt; simpl in *;
    try lia; try reflexivity.
  apply IH. lia.
Qed.

(** C2: subtracting [Constructor U h2 b] from [Constructor T h1 a].  With
    different heads the result is the left space; with equal heads and no
    parameters on the right it is [Empty]; otherwise, over the pairs of
    parameters at the same index: if some intersection simplifies to [Empty]
    the result is the left space; else if every left parameter is a subspace
    of the right one it is [Empty]; else it is [examineDecomp] of the
    reconstructions, one per pair, the i-th being the left space with
    parameter i replaced by the difference of the pair.  The last three
    cases are stated for runs on the pairs that all return; the result of a
    run that returns while some pair has an intersection simplifying to
    [Empty] is the left space as well. *)
Theorem minus_Constructor_Constructor :
  forall (fuel : nat) (T U : Ty) (h1 h2 : Identifier)
         (a b : list (Space Ty)),
    (h1 <> h2 ->
     minus O (S fuel) (Constructor T h1 a) (Constructor U h2 b)
     = Ok (Constructor T h1 a))
    /\ (h1 = h2 -> b = [] ->
        minus O (S fuel) (Constructor T h1 a) (Constructor U h2 b) = Ok Empty)
    /\ (h1 = h2 -> b <> [] ->
        forall (xs : list (Space Ty)) (ss : list bool) (ds : list (Space Ty)),
          zipM (intersect O fuel) a b = Ok xs ->
          zipM (isSubspace O fuel) a b = Ok ss ->
          zipM (minus O fuel) a b = Ok ds ->
          minus O (S fuel) (Constructor T h1 a) (Constructor U h2 b)
          = Ok (if existsb isEmpty (map (simplify O) xs)
                then Constructor T h1 a
                else if forallb (fun covered => covered) ss then Empty
                else examineDecomp (reconstructions T h1 a 0 ds))
          /\ List.length (reconstructions T h1 a 0 ds)
             = Nat.min (List.length a) (List.length b)
          /\ forall (i : nat) (d : Space Ty),
               nth_error ds i = Some d ->
               nth_error (reconstructions T h1 a 0 ds) i
               = Some (Constructor T h1 (assign a i d)))
    /\ (h1 = h2 -> b <> [] ->
        forall (r : Space Ty) (i : nat) (ai bi x : Space Ty),
          minus O (S fuel) (Constructor T h1 a) (Constructor U h2 b) = Ok r ->
          nth_error a i = Some ai ->
          nth_error b i = Some bi ->
          intersect O fuel ai bi = Ok x ->
          isEmpty (simplify O x) = true ->
          r = Constructor T h1 a).
Proof.
  intros fuel T U h1 h2 a b. split; [|split; [|split]].
  - intros Hne. simpl. apply String.eqb_neq in Hne. rewrite Hne. reflexivity.
  - intros -> ->. simpl. rewrite String.eqb_refl. reflexivity.
  - intros -> Hb xs ss ds Hxs Hss Hds. split; [|split].
    + destruct b as [|y b]; [contradiction|].
      cbn [minus isEmpty]. rewrite String.eqb_refl. cbn [negb].
      rewrite (@minusParams_returns Ty O (intersect O fuel)
                 (isSubspace O fuel) (minus O fuel) T h2 a a (y :: b)
                 xs ss ds 0 [] false Hxs Hss Hds).
      cbn [bind].
      destruct (existsb isEmpty (map (simplify O) xs)); [reflexivity|].
      cbn [orb app].
      destruct (forallb (fun covered => covered) ss); reflexivity.
    + rewrite reconstructions_length. eapply zipM_length. exact Hds.
    + intros i d Hd. exact (@reconstructions_nth_error T h2 a ds 0 i d Hd).
  - intros -> Hb r i ai bi x Hr Hai Hbi Hx Hex.
    destruct b as [|y b]; [contradiction|].
    cbn [minus isEmpty] in Hr. rewrite String.eqb_refl in Hr.
    cbn [negb] in Hr.
    destruct (minusParams O (intersect O fuel) (isSubspace O fuel)
                (minus O fuel) T h2 a a (y :: b) 0 [] false)
      as [[[cs fb]|]| |] eqn:Hloop; cbn [bind] in Hr; try discriminate.
    + apply minusParams_inversion in Hloop.
      destruct Hloop as [xs [ss [ds [Hxs [_ [_ Hne]]]]]].
      destruct (@zipM_nth_error _ _ _ _ _ _ _ _ Hxs Hai Hbi)
        as [x' [Hx' Hnth]].
      rewrite Hx in Hx'. injection Hx' as <-.
      rewrite (@existsb_isEmpty_nth_error _ _ _ Hnth Hex) in Hne.
      discriminate.
    + injection Hr as <-. reflexivity.
Qed.

End ConstructorSubtractionResult.

(** ** More budget never changes a result *)

Section LoopMonotonicity.

Variables A B : Type.

Lemma bind_Ok :
  forall (m : result A) (k : A -> result B) (r : B),
    bind m k = Ok r -> exists a, m = Ok a /\ k a = Ok r.
Proof.
  intros [a| |] k r Hr; simpl in Hr; try discriminate.
  exists a. split; [reflexivity|exact Hr].
Qed.

Lemma mapM_mono :
  forall (f g : A -> result B) (l : list A) (rs : list B),
    (forall x r, f x = Ok r -> g x = Ok r) ->
    mapM f l = Ok rs -> mapM g l = Ok rs.
Proof.
  intros f g l rs Hfg. revert rs.
  induction l as [|x l IH]; intros rs Hrs; simpl in *; [exact Hrs|].
  destruct (f x) as [y| |] eqn:Hy; simpl in Hrs; try discriminate.
  destruct (mapM f l) as [ys| |]; simpl in Hrs; try discriminate.
  rewrite (Hfg _ _ Hy). simpl. rewrite (IH ys eq_refl). exact Hrs.
Qed.

Lemma allM_mono :
  forall (p q : A -> result bool) (l : list A) (b : bool),
    (forall x r, p x = Ok r -> q x = Ok r) ->
    allM p l = Ok b -> allM q l = Ok b.
Proof.
  intros p q l b Hpq.
  induction l as [|x l IH]; intros Hb; simpl in *; [exact Hb|].
  destruct (p x) as [c| |] eqn:Hc; simpl in Hb; try discriminate.
  rewrite (Hpq _ _ Hc). simpl. destruct c; [apply IH|]; exact Hb.
Qed.

Lemma anyM_mono :
  forall (p q : A -> result bool) (l : list A) (rest rest' : result bool)
         (b : bool),
    (forall x r, p x = Ok r -> q x = Ok r) ->
    (rest = Ok b -> rest' = Ok b) ->
    anyM p l rest = Ok b -> anyM q l rest' = Ok b.
Proof.
  intros p q l rest rest' b Hpq Hrest.
  induction l as [|x l IH]; intros Hb; simpl in *; [exact (Hrest Hb)|].
  destruct (p x) as [c| |] eqn:Hc; simpl in Hb; try discriminate.
  rewrite (Hpq _ _ Hc). simpl. destruct c; [|apply IH]; exact Hb.
Qed.

Lemma foldM_mono :
  forall (f g : A -> B -> result A) (l : list B) (acc r : A),
    (forall a x r, f a x = Ok r -> g a x = Ok r) ->
    foldM f l acc = Ok r -> foldM g l acc = Ok r.
Proof.
  intros f g l acc r Hfg. revert acc.
  induction l as [|x l IH]; intros acc Hr; simpl in *; [exact Hr|].
  destruct (f acc x) as [acc'| |] eqn:Ha; simpl in Hr; try discriminate.
  rewrite (Hfg _ _ _ Ha). simpl. apply IH. exact Hr.
Qed.

End LoopMonotonicity.

Section FuelMonotonicity.

Variable Ty : Type.
Variable O : TypeOracle Ty.

Lemma allM2_mono :
  forall (p q : Space Ty -> Space Ty -> result bool)
         (l1 l2 : list (Space Ty)) (b : bool),
    extends p q -> allM2 p l1 l2 = Ok b -> allM2 q l1 l2 = Ok b.
Proof.
  intros p q l1 l2 b Hpq. revert l2.
  induction l1 as [|x l1 IH]; intros [|y l2] Hb; simpl in *; try exact Hb.
  destruct (p x y) as [c| |] eqn:Hc; simpl in Hb; try discriminate.
  rewrite (Hpq _ _ _ Hc). simpl. destruct c; [apply IH|]; exact Hb.
Qed.

Lemma intersectParams_mono :
  forall (f g : Space Ty -> Space Ty -> result (Space Ty))
         (l1 l2 paramSpace : list (Space Ty))
         (r : option (list (Space Ty))),
    extends f g ->
    intersectParams O f l1 l2 paramSpace = Ok r ->
    intersectParams O g l1 l2 paramSpace = Ok r.
Proof.
  intros f g l1 l2 acc r Hfg. revert l2 acc.
  induction l1 as [|x l1 IH]; intros [|y l2] acc Hr; simpl in *; try exact Hr.
  destruct (f x y) as [v| |] eqn:Hv; simpl in Hr; try discriminate.
  rewrite (Hfg _ _ _ Hv). simpl.
  destruct (isEmpty (simplify O v)); [exact Hr|apply IH; exact Hr].
Qed.

Lemma minusParams_mono :
  forall (f f' : Space Ty -> Space Ty -> result (Space Ty))
         (s s' : Space Ty -> Space Ty -> result bool)
         (d d' : Space Ty -> Space Ty -> result (Space Ty))
         (T : Ty) (H : Identifier) (params l1 l2 : list (Space Ty))
         (idx : nat) (constrSpaces : list (Space Ty)) (foundBad : bool)
         (r : option (list (Space Ty) * bool)),
    extends f f' -> extends s s' -> extends d d' ->
    minusParams O f s d T H params l1 l2 idx constrSpaces foundBad = Ok r ->
    minusParams O f' s' d' T H params l1 l2 idx constrSpaces foundBad = Ok r.
Proof.
  intros f f' s s' d d' T H params l1 l2 idx acc fb r Hf Hs Hd.
  revert l2 idx acc fb.
  induction l1 as [|x l1 IH]; intros [|y l2] idx acc fb Hr; simpl in *;
    try exact Hr.
  destruct (f x y) as [v| |] eqn:Hv; simpl in Hr; try discriminate.
  rewrite (Hf _ _ _ Hv). simpl.
  destruct (isEmpty (simplify O v)); [exact Hr|].
  destruct (s x y) as [c| |] eqn:Hc; simpl in Hr; try discriminate.
  rewrite (Hs _ _ _ Hc). simpl.
  destruct (d x y) as [w| |] eqn:Hw; simpl in Hr; try discriminate.
  rewrite (Hd _ _ _ Hw). simpl. apply IH. exact Hr.
Qed.

(** One step of the argument: the two runs differ only in the budget of
    the calls they make. *)
Ltac same_run IH :=
  repeat first
    [ assumption
    | discriminate
    | apply IH
    | match goal with
      | |- (if ?c then _ else _) = _ -> _ => destruct c
      | |- bind (if ?c then _ else _) _ = _ -> _ => destruct c
      | |- match ?x with _ => _ end = _ -> _ =>
          destruct x
      | |- bind (bind ?m _) _ = _ -> _ => destruct m as [?| |]; simpl
      | |- bind ?m _ = Ok _ -> bind ?m _ = Ok _ =>
          destruct m as [?| |]; simpl
      | |- bind ?m _ = Ok _ -> _ =>
          let E := fresh "E" in
          destruct m as [?| |] eqn:E; simpl; [|discriminate|discriminate];
          first [ apply IH in E
                | eapply mapM_mono in E; [|intros ? ?; apply IH]
                | eapply intersectParams_mono in E; [|exact IH] ];
          rewrite E; simpl
      | |- allM _ _ = _ -> _ => apply allM_mono; intros ? ?
      | |- allM2 _ _ _ = _ -> _ => apply allM2_mono
      | |- anyM _ _ _ = _ -> _ => apply anyM_mono; [intros ? ?|]
      | |- foldM _ _ _ = _ -> _ => apply foldM_mono; intros ? ? ?
      | |- Ok _ = _ -> _ => intro
      end ].

Lemma isSubspace_mono :
  forall n m : nat,
    n <= m -> extends (isSubspace O n) (isSubspace O m).
Proof.
  induction n as [|n IH]; intros [|m] Hle this other r; try discriminate;
    try lia.
  assert (IH' : extends (isSubspace O n) (isSubspace O m))
    by (apply IH; lia).
  clear IH. simpl.
  destruct (isEmpty this); [trivial|]. destruct (isEmpty other); [trivial|].
  destruct this, other; same_run IH'.
Qed.

Lemma intersect_mono :
  forall n m : nat,
    n <= m -> extends (intersect O n) (intersect O m).
Proof.
  induction n as [|n IH]; intros [|m] Hle this other r; try discriminate;
    try lia.
  assert (IH' : extends (intersect O n) (intersect O m))
    by (apply IH; lia).
  clear IH. simpl.
  destruct (isEmpty this || isEmpty other); [trivial|].
  destruct this, other; same_run IH'.
Qed.

Lemma minus_mono :
  forall n m : nat,
    n <= m -> extends (minus O n) (minus O m).
Proof.
  induction n as [|n IH]; intros [|m] Hle this other r; try discriminate;
    try lia.
  assert (IH' : extends (minus O n) (minus O m))
    by (apply IH; lia).
  assert (Hi : extends (intersect O n) (intersect O m))
    by (apply intersect_mono; lia).
  assert (Hs : extends (isSubspace O n) (isSubspace O m))
    by (apply isSubspace_mono; lia).
  clear IH. simpl.
  destruct (isEmpty this); [trivial|]. destruct (isEmpty other); [trivial|].
  destruct this, other; same_run IH'; same_run Hi.
  all: intros Hr.
  all: destruct (minusParams O (intersect O n) (isSubspace O n) (minus O n)
                   _ _ _ _ _ _ _ _) as [p| |] eqn:Hloop;
         simpl in Hr; try discriminate.
  all: eapply minusParams_mono in Hloop; [|exact Hi|exact Hs|exact IH'].
  all: rewrite Hloop; exact Hr.
Qed.

Lemma minus_deterministic :
  forall (n m : nat) (this other r r' : Space Ty),
    minus O n this other = Ok r ->
    minus O m this other = Ok r' ->
    r = r'.
Proof.
  intros n m this other r r' Hn Hm.
  apply (@minus_mono n (Nat.max n m) (Nat.le_max_l n m)) in Hn.
  apply (@minus_mono m (Nat.max n m) (Nat.le_max_r n m)) in Hm.
  congruence.
Qed.

Lemma intersect_deterministic :
  forall (n m : nat) (this other r r' : Space Ty),
    intersect O n this other = Ok r ->
    intersect O m this other = Ok r' ->
    r = r'.
Proof.
  intros n m this other r r' Hn Hm.
  apply (@intersect_mono n (Nat.max n m) (Nat.le_max_l n m)) in Hn.
  apply (@intersect_mono m (Nat.max n m) (Nat.le_max_r n m)) in Hm.
  congruence.
Qed.

Lemma isSubspace_deterministic :
  forall (n m : nat) (this other : Space Ty) (r r' : bool),
    isSubspace O n this other = Ok r ->
    isSubspace O m this other = Ok r' ->
    r = r'.
Proof.
  intros n m this other r r' Hn Hm.
  apply (@isSubspace_mono n (Nat.max n m) (Nat.le_max_l n m)) in Hn.
  apply (@isSubspace_mono m (Nat.max n m) (Nat.le_max_r n m)) in Hm.
  congruence.
Qed.

End FuelMonotonicity.

(** ** Subtracting the space of a type from the space of a type *)

Section TypeSubtraction.

Variable Ty : Type.
Variable O : TypeOracle Ty.

(** The case of two type spaces decomposes a side and then intersects. *)
Lemma minus_Type_Type :
  forall (fuel : nat) (T U : Ty),
    minus O (S fuel) (TypeSpace T) (TypeSpace U)
    = if isEqual O T U then Ok Empty
      else if canDecompose O T then
        spaces <- decomposeM O T ;;
        intersect O fuel (examineDecomp spaces) (TypeSpace U)
      else if canDecompose O U then
        spaces <- decomposeM O U ;;
        intersect O fuel (TypeSpace T) (examineDecomp spaces)
      else Ok Empty.
Proof.
  intros fuel T U. reflexivity.
Qed.

Lemma minus_Type_Type_equal :
  forall (fuel : nat) (T U : Ty),
    isEqual O T U = true ->
    minus O (S fuel) (TypeSpace T) (TypeSpace U) = Ok Empty.
Proof.
  intros fuel T U Heq. rewrite minus_Type_Type, Heq. reflexivity.
Qed.

Lemma minus_Type_Type_undecomposable :
  forall (fuel : nat) (T U : Ty),
    canDecompose O T = false ->
    canDecompose O U = false ->
    minus O (S fuel) (TypeSpace T) (TypeSpace U) = Ok Empty.
Proof.
  intros fuel T U HT HU. rewrite minus_Type_Type, HT, HU.
  destruct (isEqual O T U); reflexivity.
Qed.

End TypeSubtraction.

(** ** Concrete runs *)

Lemma checkExhaustiveness_guards_and_default_witness :
  existsb (@unguardedDefault SampleTy unit) (allCaseLabelItems sampleSwitch)
  = true
  /\ checkExhaustiveness samplePlaceholder sampleOracle 0
       {| DiagnosticsEditorMode := false |} sampleSwitch false
     = Ok [].
Proof.
  split; [reflexivity|].
  apply (proj2 (proj2 (@checkExhaustiveness_guards_and_default
                         SampleTy unit samplePlaceholder sampleOracle 0
                         {| DiagnosticsEditorMode := false |} sampleSwitch))).
  reflexivity.
Defined.

Lemma identity_laws_witness :
  isEqual sampleOracle TBool TBool = true
  /\ SpaceOver sampleOracle TBool
       (Disjunct [BooleanConstant true; TypeSpace TBool])
  /\ disjunctDepth (Disjunct [BooleanConstant true; TypeSpace TBool]) < 2
  /\ exists r,
       intersect sampleOracle 2
         (Disjunct [BooleanConstant true; TypeSpace TBool]) (TypeSpace TBool)
       = Ok r
       /\ simplify sampleOracle r
          = simplify sampleOracle
              (Disjunct [BooleanConstant true; TypeSpace TBool]).
Proof.
  assert (Hover : SpaceOver sampleOracle TBool
                    (Disjunct [BooleanConstant true; TypeSpace TBool])).
  { constructor. repeat constructor. }
  assert (Hdepth :
            disjunctDepth (Disjunct [BooleanConstant true; TypeSpace TBool])
            < 2).
  { simpl. lia. }
  split; [reflexivity|]. split; [exact Hover|]. split; [exact Hdepth|].
  exact (proj1 (@identity_laws SampleTy sampleOracle TBool eq_refl)
           _ 2 Hover Hdepth).
Defined.

Lemma minus_Constructor_Constructor_witness :
  minus sampleOracle 4
    (Constructor TMaybeBool "none" [])
    (Constructor TMaybeBool "some" [BooleanConstant true])
  = Ok (Constructor TMaybeBool "none" [])
  /\ minus sampleOracle 4
       (Constructor TMaybeBool "some" [TypeSpace TBool])
       (Constructor TMaybeBool "some" [])
     = Ok Empty
  /\ minus sampleOracle 4
       (Constructor TIntPair "" [TypeSpace TBool; TypeSpace TBool])
       (Constructor TIntPair "" [BooleanConstant true; BooleanConstant true])
     = Ok (Disjunct
             [ Constructor TIntPair ""
                 [Disjunct [Empty; BooleanConstant false]; TypeSpace TBool];
               Constructor TIntPair ""
                 [TypeSpace TBool; Disjunct [Empty; BooleanConstant false]] ])
  /\ minus sampleOracle 4
       (Constructor TIntPair "" [TypeSpace TBool; BooleanConstant false])
       (Constructor TIntPair "" [BooleanConstant true; BooleanConstant true])
     = Ok (Constructor TIntPair "" [TypeSpace TBool; BooleanConstant false]).
Proof.
  split; [|split; [|split]].
  - apply (proj1 (@minus_Constructor_Constructor SampleTy sampleOracle 3
                    TMaybeBool TMaybeBool "none" "some"
                    [] [BooleanConstant true])).
    discriminate.
  - exact (proj1 (proj2 (@minus_Constructor_Constructor SampleTy sampleOracle 3
                           TMaybeBool TMaybeBool "some" "some"
                           [TypeSpace TBool] []))
             eq_refl eq_refl).
  - refine (proj1 (proj1 (proj2 (proj2
              (@minus_Constructor_Constructor SampleTy sampleOracle 3
                 TIntPair TIntPair "" ""
                 [TypeSpace TBool; TypeSpace TBool]
                 [BooleanConstant true; BooleanConstant true])))
              eq_refl _
              [BooleanConstant true; BooleanConstant true]
              [false; false]
              [Disjunct [Empty; BooleanConstant false];
               Disjunct [Empty; BooleanConstant false]]
              eq_refl eq_refl eq_refl)).
    discriminate.
  - destruct (minus sampleOracle 4
                (Constructor TIntPair ""
                   [TypeSpace TBool; BooleanConstant false])
                (Constructor TIntPair ""
                   [BooleanConstant true; BooleanConstant true]))
      as [r| |] eqn:Hr; try discriminate.
    f_equal.
    refine (proj2 (proj2 (proj2
              (@minus_Constructor_Constructor SampleTy sampleOracle 3
                 TIntPair TIntPair "" ""
                 [TypeSpace TBool; BooleanConstant false]
                 [BooleanConstant true; BooleanConstant true])))
              eq_refl _ r 1 (BooleanConstant false) (BooleanConstant true)
              Empty Hr eq_refl eq_refl eq_refl eq_refl).
    discriminate.
Defined.

(** With a single pair of parameters the result of the last case is the
    reconstruction itself, not a disjunct holding it. *)
Lemma minus_Constructor_Constructor_single_parameter :
  intersect sampleOracle 3 (TypeSpace TBool) (BooleanConstant true)
  = Ok (BooleanConstant true)
  /\ isEmpty (simplify sampleOracle (BooleanConstant true)) = false
  /\ isSubspace sampleOracle 3 (TypeSpace TBool) (BooleanConstant true)
     = Ok false
  /\ minus sampleOracle 3 (TypeSpace TBool) (BooleanConstant true)
     = Ok (Disjunct [Empty; BooleanConstant false])
  /\ minus sampleOracle 4
       (Constructor TMaybeBool "some" [TypeSpace TBool])
       (Constructor TMaybeBool "some" [BooleanConstant true])
     = Ok (Constructor TMaybeBool "some"
             [Disjunct [Empty; BooleanConstant false]])
  /\ minus sampleOracle 4
       (Constructor TMaybeBool "some" [TypeSpace TBool])
       (Constructor TMaybeBool "some" [BooleanConstant true])
     <> Ok (Disjunct
              [Constructor TMaybeBool "some"
                 [Disjunct [Empty; BooleanConstant false]]]).
Proof.
  repeat split; try reflexivity. discriminate.
Qed.

(** C1: on [Bool] against the unrelated, non-decomposable [Int], the
    subtraction of type spaces returns [Empty], while the decomposition of
    [Bool] is [true | false] and subtracting the space of [Int] from that
    decomposition leaves [true | false]; with the sides exchanged it returns
    [Empty] while subtracting the decomposition from the space of [Int]
    leaves the space of [Int]. *)
Theorem minus_Type_Type_intersects_the_decomposition :
  forall fuel : nat,
    minus sampleOracle (3 + fuel) (TypeSpace TBool) (TypeSpace TInt)
    = Ok Empty
    /\ decompose sampleOracle TBool
       = Some [BooleanConstant true; BooleanConstant false]
    /\ minus sampleOracle (2 + fuel)
         (examineDecomp [BooleanConstant true; BooleanConstant false])
         (TypeSpace TInt)
       = Ok (Disjunct [BooleanConstant true; BooleanConstant false])
    /\ minus sampleOracle (3 + fuel) (TypeSpace TInt) (TypeSpace TBool)
       = Ok Empty
    /\ minus sampleOracle (2 + fuel) (TypeSpace TInt)
         (examineDecomp [BooleanConstant true; BooleanConstant false])
       = Ok (TypeSpace TInt).
Proof.
  intros fuel. repeat split; reflexivity.
Qed.

(** C3: the space of the tuple type [(Int, Int)] passes the subspace test
    against the space of [Int], yet their difference is the tuple's
    constructor space, which [simplify] leaves as it is.  Likewise the
    tuple space of a [Bool] and an [Int] passes the test against the tuple
    space of two [Int]s and is its own difference with it. *)
Theorem isSubspace_with_nonempty_difference :
  forall fuel : nat,
    isSubspace sampleOracle (3 + fuel) (TypeSpace TIntPair) (TypeSpace TInt)
    = Ok true
    /\ minus sampleOracle (2 + fuel) (TypeSpace TIntPair) (TypeSpace TInt)
       = Ok (Constructor TIntPair "" [TypeSpace TInt; TypeSpace TInt])
    /\ simplify sampleOracle
         (Constructor TIntPair "" [TypeSpace TInt; TypeSpace TInt])
       = Constructor TIntPair "" [TypeSpace TInt; TypeSpace TInt]
    /\ isSubspace sampleOracle (4 + fuel)
         (Constructor TIntPair "" [TypeSpace TBool; TypeSpace TInt])
         (Constructor TIntPair "" [TypeSpace TInt; TypeSpace TInt])
       = Ok true
    /\ minus sampleOracle (4 + fuel)
         (Constructor TIntPair "" [TypeSpace TBool; TypeSpace TInt])
         (Constructor TIntPair "" [TypeSpace TInt; TypeSpace TInt])
       = Ok (Constructor TIntPair "" [TypeSpace TBool; TypeSpace TInt])
    /\ simplify sampleOracle
         (Constructor TIntPair "" [TypeSpace TBool; TypeSpace TInt])
       = Constructor TIntPair "" [TypeSpace TBool; TypeSpace TInt].
Proof.
  intros fuel. repeat split; reflexivity.
Qed.

(** The subspace test has no case for a boolean constant against a
    constructor space, and a subtraction of constructor spaces that reaches
    it does not return, even when a later pair of parameters is disjoint. *)
Example isSubspace_BooleanConstant_Constructor :
  forall fuel : nat,
    isSubspace sampleOracle (1 + fuel)
      (BooleanConstant true) (Constructor TMaybeBool "none" [])
    = Abort
    /\ minus sampleOracle (3 + fuel)
         (Constructor TIntPair ""
            [Disjunct [BooleanConstant true; TypeSpace TInt];
             BooleanConstant false])
         (Constructor TIntPair ""
            [Constructor TMaybeBool "none" []; BooleanConstant true])
       = Abort.
Proof.
  intros fuel. split; reflexivity.
Qed.

(** *** The switches of the documentation, outside the editor

    [Bool] with [true] and [false] is exhaustive; [Bool] with [true] misses
    [false]; [Maybe<Bool>] with [.none] and [.some(true)] misses
    [.some(false)]; the pair of [Maybe<Bool>] with [(.some(_), .some(_))] and
    [(.none, .none)] misses [(.none, .some(_))] and [(.some(_), .none)], as
    in the comment of [diagnoseMissingCases]; [Int] with two expression
    patterns needs a default. *)

Example switch_Bool_true_false :
  sampleRun (sampleSwitchOn TBool [BoolPattern true; BoolPattern false])
  = Ok [].
Proof. reflexivity. Qed.

Example switch_Bool_true :
  sampleRun (sampleSwitchOn TBool [BoolPattern true]) = Ok (missing ["false"]).
Proof. reflexivity. Qed.

Example switch_Maybe_none_some_true :
  sampleRun (sampleSwitchOn TMaybeBool
               [nonePattern; somePattern (BoolPattern true)])
  = Ok (missing [".some(false)"]).
Proof. reflexivity. Qed.

Example switch_pair_of_Maybe :
  sampleRun (sampleSwitchOn TMaybePair
               [ TuplePattern TMaybePair
                   [somePattern (AnyPattern TBool);
                    somePattern (AnyPattern TBool)];
                 TuplePattern TMaybePair [nonePattern; nonePattern] ])
  = Ok (missing ["(.none, .some(_))"; "(.some(_), .none)"]).
Proof. reflexivity. Qed.

Example switch_Int_expression_patterns :
  sampleRun (sampleSwitchOn TInt [ExprPattern; ExprPattern])
  = Ok [ {| diagLoc := 0;
            diagMessage := non_exhaustive_switch false true "";
            diagFixIts := [(9, "default: <#code#>" << newline)] |} ].
Proof. reflexivity. Qed.

(** * Further properties *)

(** ** The normal form [simplify] computes *)

Section SimplifyNormalForm.

Variable Ty : Type.
Variable O : TypeOracle Ty.

Lemma forallb_simplified_map :
  forall SP : list (Space Ty),
    Forall (fun s => isSimplified O (simplify O s) = true) SP ->
    forallb (isSimplified O) (map (simplify O) SP) = true.
Proof.
  induction 1 as [|x l Hx _ IH]; simpl.
  - reflexivity.
  - rewrite Hx, IH. reflexivity.
Qed.

Lemma forallb_simplified_nonEmpty :
  forall L : list (Space Ty),
    forallb (isSimplified O) L = true ->
    existsb isEmpty L = false ->
    forallb (fun s => isSimplified O s && nonEmpty s) L = true.
Proof.
  induction L as [|x L IH]; simpl; intros Hs He.
  - reflexivity.
  - apply andb_true_iff in Hs. destruct Hs as [Hx HL].
    apply orb_false_iff in He. destruct He as [Hex HeL].
    rewrite (IH HL HeL), Hx. unfold nonEmpty. rewrite Hex. reflexivity.
Qed.

Lemma forallb_simplified_filter :
  forall L : list (Space Ty),
    forallb (isSimplified O) L = true ->
    forallb (fun s => isSimplified O s && nonEmpty s) (filter nonEmpty L)
    = true.
Proof.
  induction L as [|x L IH]; simpl; intros Hs.
  - reflexivity.
  - apply andb_true_iff in Hs. destruct Hs as [Hx HL].
    destruct (nonEmpty x) eqn:Hn; simpl.
    + rewrite (IH HL), Hx, Hn. reflexivity.
    + exact (IH HL).
Qed.

Lemma isSimplified_simplify :
  forall s : Space Ty, isSimplified O (simplify O s) = true.
Proof.
  induction s as [|T|T H SP IH|SP IH|C] using Space_ind.
  - reflexivity.
  - simpl. destruct (canDecompose O T) eqn:Hcan.
    + destruct (decompose O T) as [[|x l]|] eqn:Hdec; simpl;
        unfold uninhabited; rewrite ?Hcan, ?Hdec; reflexivity.
    + simpl. unfold uninhabited. rewrite Hcan. reflexivity.
  - destruct SP as [|x SP]; [reflexivity|].
    change (simplify O (Constructor T H (x :: SP)))
      with (if existsb isEmpty (map (simplify O) (x :: SP)) then Empty
            else Constructor T H (map (simplify O) (x :: SP))).
    destruct (existsb isEmpty (map (simplify O) (x :: SP))) eqn:Hex.
    + reflexivity.
    + cbn [isSimplified]. apply forallb_simplified_nonEmpty;
        [apply forallb_simplified_map; exact IH|exact Hex].
  - rewrite simplify_Disjunct_examineDecomp.
    pose proof (forallb_simplified_filter _ (forallb_simplified_map IH))
      as HF.
    destruct (filter nonEmpty (map (simplify O) SP)) as [|x [|y F]].
    + reflexivity.
    + simpl in HF. apply andb_true_iff in HF. destruct HF as [HF _].
      apply andb_true_iff in HF. destruct HF as [HF _]. exact HF.
    + change (examineDecomp (x :: y :: F)) with (Disjunct (x :: y :: F)).
      cbn [isSimplified]. rewrite HF. reflexivity.
  - reflexivity.
Qed.

Lemma members_fixed :
  forall SP : list (Space Ty),
    Forall (fun s => isSimplified O s = true -> simplify O s = s) SP ->
    forallb (fun s => isSimplified O s && nonEmpty s) SP = true ->
    Forall (fixedBySimplify O) SP /\ existsb isEmpty SP = false
    /\ filter nonEmpty SP = SP.
Proof.
  induction 1 as [|x l Hx _ IH]; simpl; intros Hall.
  - repeat split. constructor.
  - apply andb_true_iff in Hall. destruct Hall as [Hhead Hl].
    apply andb_true_iff in Hhead. destruct Hhead as [Hs Hn].
    destruct (IH Hl) as [Hfix [Hex Hfil]].
    unfold nonEmpty in Hn. apply negb_true_iff in Hn.
    repeat split.
    + constructor; [exact (Hx Hs)|exact Hfix].
    + rewrite Hn, Hex. reflexivity.
    + unfold nonEmpty at 1. rewrite Hn. simpl. rewrite Hfil. reflexivity.
Qed.

Lemma simplify_isSimplified :
  forall s : Space Ty, isSimplified O s = true -> simplify O s = s.
Proof.
  induction s as [|T|T H SP IH|SP IH|C] using Space_ind; intros Hs.
  - reflexivity.
  - simpl in Hs. unfold uninhabited in Hs. simpl.
    destruct (canDecompose O T); [|reflexivity].
    destruct (decompose O T) as [[|x l]|]; try reflexivity.
    discriminate.
  - cbn [isSimplified] in Hs.
    destruct (members_fixed IH Hs) as [Hfix [Hex _]].
    apply simplify_Constructor_fixed; assumption.
  - cbn [isSimplified] in Hs. apply andb_true_iff in Hs.
    destruct Hs as [Hlen Hall].
    destruct (members_fixed IH Hall) as [Hfix [_ Hfil]].
    rewrite simplify_Disjunct_examineDecomp, (map_simplify_fixed Hfix), Hfil.
    destruct SP as [|x [|y SP]]; try discriminate. reflexivity.
  - reflexivity.
Qed.

(** X1: [simplify] returns a space in normal form, and the spaces it
    returns unchanged are exactly the normal forms. *)
Theorem simplify_normal_form :
  forall s : Space Ty,
    isSimplified O (simplify O s) = true
    /\ (simplify O s = s <-> isSimplified O s = true).
Proof.
  intros s. split; [apply isSimplified_simplify|]. split.
  - intros Hfix. rewrite <- Hfix. apply isSimplified_simplify.
  - apply simplify_isSimplified.
Qed.

End SimplifyNormalForm.

(** ** What [flatten] appends *)

Section FlattenResult.

Variable Ty : Type.

Lemma flatten_Constructor_unchanged :
  forall (T : Ty) (H : Identifier) (SP flats : list (Space Ty)),
    flatten (Constructor T H SP) flats = Ok flats.
Proof.
  intros T H SP flats. simpl. generalize 0.
  induction SP as [|param SP IH]; intros i; [reflexivity|].
  rewrite flattenSkips_always. apply IH.
Qed.

Lemma flatten_leaves :
  forall (s : Space Ty) (flats : list (Space Ty)),
    flatten s flats = Ok (flats ++ leaves s).
Proof.
  induction s as [|T|T H SP _|SP IH|C] using Space_ind; intros flats;
    try reflexivity.
  - rewrite flatten_Constructor_unchanged. simpl. rewrite app_nil_r.
    reflexivity.
  - simpl. revert flats.
    induction IH as [|m SP Hm _ IHSP]; intros flats; simpl.
    + rewrite app_nil_r. reflexivity.
    + rewrite Hm. simpl. rewrite IHSP, app_assoc. reflexivity.
Qed.

Lemma leaves_are_leaves :
  forall s : Space Ty, forallb isLeaf (leaves s) = true.
Proof.
  induction s as [|T|T H SP _|SP IH|C] using Space_ind; try reflexivity.
  simpl. induction IH as [|m SP Hm _ IHSP]; simpl; [reflexivity|].
  rewrite forallb_app, Hm, IHSP. reflexivity.
Qed.

(** X2: [flatten] returns on every space; it keeps what the list held and
    appends the leaves of the space, none of which is a disjunct or a
    constructor, so a constructor space adds nothing, also inside a
    disjunct; and the list [diagnoseMissingCases] shows for an uncovered
    space is those leaves, or the space itself when it has none, hence
    never empty. *)
Theorem flatten_appends_leaves :
  forall (s : Space Ty) (flats : list (Space Ty)),
    flatten s flats = Ok (flats ++ leaves s)
    /\ forallb isLeaf (leaves s) = true
    /\ flatsOf s = Ok (if empty (leaves s) then [s] else leaves s)
    /\ (if empty (leaves s) then [s] else leaves s) <> [].
Proof.
  intros s flats. split; [apply flatten_leaves|].
  split; [apply leaves_are_leaves|]. split.
  - unfold flatsOf. rewrite flatten_leaves. simpl.
    destruct (leaves s); reflexivity.
  - destruct (leaves s); discriminate.
Qed.

End FlattenResult.

(** ** Decomposition and its guard *)

Section DecomposeGuard.

Variable Ty : Type.
Variable O : TypeOracle Ty.

Lemma decomposeM_canDecompose :
  forall tp : Ty,
    canDecompose O tp = true -> exists spaces, decomposeM O tp = Ok spaces.
Proof.
  intros tp Hcan. unfold decomposeM.
  destruct (decompose O tp) as [spaces|] eqn:Hdec.
  - exists spaces. reflexivity.
  - unfold canDecompose in Hcan. unfold decompose in Hdec.
    destruct (isBool O tp); [discriminate|].
    destruct (getEnumOrBoundGenericEnum O tp); [discriminate|].
    destruct (getAsTupleType O tp); discriminate.
Qed.

(** X3: [decompose] passes its assertion and misses its unreachable branch
    exactly on the types [canDecompose] accepts; on a boolean type it gives
    the two constants, whatever else the type is; on a tuple type that is
    neither boolean nor an enum, a single constructor space with the empty
    head and one type space per element. *)
Theorem decompose_guarded_by_canDecompose :
  forall tp : Ty,
    (canDecompose O tp = true <-> exists spaces, decompose O tp = Some spaces)
    /\ (isBool O tp = true ->
        decompose O tp = Some [BooleanConstant true; BooleanConstant false])
    /\ (forall elts : list Ty,
          isBool O tp = false ->
          getEnumOrBoundGenericEnum O tp = None ->
          getAsTupleType O tp = Some elts ->
          exists params,
            decompose O tp = Some [Constructor tp noIdentifier params]
            /\ List.length params = List.length elts
            /\ forall (i : nat) (elt : Ty),
                 nth_error elts i = Some elt ->
                 nth_error params i = Some (TypeSpace elt)).
Proof.
  intros tp. split; [|split].
  - unfold canDecompose, decompose.
    destruct (isBool O tp), (getEnumOrBoundGenericEnum O tp),
      (getAsTupleType O tp); simpl; split; intros Hyp;
      try reflexivity; try (eexists; reflexivity);
      try discriminate; destruct Hyp; discriminate.
  - intros Hbool. unfold decompose. rewrite Hbool. reflexivity.
  - intros elts Hbool Henum Htuple.
    exists (map (@TypeSpace Ty) elts). unfold decompose.
    rewrite Hbool, Henum, Htuple. split; [reflexivity|].
    split; [apply length_map|].
    intros i elt Hi. rewrite nth_error_map, Hi. reflexivity.
Qed.

End DecomposeGuard.

Lemma decompose_guarded_by_canDecompose_witness :
  isBool sampleOracle TBool = true
  /\ decompose sampleOracle TBool
     = Some [BooleanConstant true; BooleanConstant false]
  /\ isBool sampleOracle TIntPair = false
  /\ getEnumOrBoundGenericEnum sampleOracle TIntPair = None
  /\ getAsTupleType sampleOracle TIntPair = Some [TInt; TInt]
  /\ exists params,
       decompose sampleOracle TIntPair
       = Some [Constructor TIntPair noIdentifier params]
       /\ List.length params = 2.
Proof.
  split; [reflexivity|]. split.
  - exact (proj1 (proj2 (@decompose_guarded_by_canDecompose
                           SampleTy sampleOracle TBool)) eq_refl).
  - split; [reflexivity|]. split; [reflexivity|]. split; [reflexivity|].
    destruct (proj2 (proj2 (@decompose_guarded_by_canDecompose
                              SampleTy sampleOracle TIntPair))
                [TInt; TInt] eq_refl eq_refl eq_refl)
      as [params [Hdec [Hlen _]]].
    exists params. split; [exact Hdec|exact Hlen].
Defined.

(** ** The pairs of kinds the operations have no case for *)

Section UnreachablePairs.

Variable Ty : Type.
Variable O : TypeOracle Ty.

Lemma mapM_never_aborts :
  forall (A B : Type) (f : A -> result B) (l : list A),
    (forall x, f x <> Abort) -> mapM f l <> Abort.
Proof.
  intros A B f l Hf. induction l as [|x l IH]; simpl; [discriminate|].
  specialize (Hf x). destruct (f x); simpl; try congruence.
  destruct (mapM f l); simpl; congruence.
Qed.

Lemma intersectParams_never_aborts :
  forall (f : Space Ty -> Space Ty -> result (Space Ty))
         (l1 l2 paramSpace : list (Space Ty)),
    (forall a b, f a b <> Abort) ->
    intersectParams O f l1 l2 paramSpace <> Abort.
Proof.
  intros f l1 l2 acc Hf. revert l2 acc.
  induction l1 as [|x l1 IH]; intros [|y l2] acc; simpl; try discriminate.
  specialize (Hf x y). destruct (f x y) as [v| |]; simpl; try congruence.
  destruct (isEmpty (simplify O v)); [discriminate|apply IH].
Qed.

Ltac no_abort IH :=
  repeat first
    [ discriminate
    | apply IH
    | match goal with
      | |- (if ?c then _ else _) <> Abort => destruct c eqn:?
      | Hcan : canDecompose O ?T = true |- bind (decomposeM O ?T) _ <> Abort =>
          let sp := fresh "sp" in
          let E := fresh "E" in
          destruct (decomposeM_canDecompose O T Hcan) as [sp E];
          rewrite E; simpl
      | |- bind (mapM ?f ?l) _ <> Abort =>
          let E := fresh "E" in
          destruct (mapM f l) eqn:E; simpl;
          [ | exfalso; revert E; apply mapM_never_aborts; intros ?; apply IH | ]
      | |- bind (intersectParams O ?f ?l1 ?l2 ?acc) _ <> Abort =>
          let E := fresh "E" in
          destruct (intersectParams O f l1 l2 acc) as [[?|]| |] eqn:E; simpl;
          [ | | exfalso; revert E; apply intersectParams_never_aborts; apply IH | ]
      | |- match ?x with _ => _ end <> Abort => destruct x
      end ].

(** X4: [intersect] has a case for every pair of spaces: whatever the
    budget, a run never reaches the unreachable default nor a failed
    assertion. *)
Theorem intersect_never_aborts :
  forall (fuel : nat) (this other : Space Ty),
    intersect O fuel this other <> Abort.
Proof.
  induction fuel as [|n IH]; intros this other; [discriminate|].
  destruct this, other; simpl; no_abort IH.
Qed.

(** X5: [isSubspace] has no case for a boolean constant against a
    constructor space and aborts on it; so does the test of the space of a
    boolean type against a constructor space, which decomposes the type
    into the two constants first. *)
Theorem isSubspace_aborts_on_BooleanConstant_Constructor :
  forall (fuel : nat) (U : Ty) (H : Identifier) (SP : list (Space Ty)),
    (forall C : bool,
        isSubspace O (S fuel) (BooleanConstant C) (Constructor U H SP) = Abort)
    /\ (forall T : Ty,
           isBool O T = true ->
           isSubspace O (3 + fuel) (TypeSpace T) (Constructor U H SP) = Abort).
Proof.
  intros fuel U H SP. split.
  - intros C. reflexivity.
  - intros T Hbool.
    assert (Hcan : canDecompose O T = true).
    { unfold canDecompose. rewrite Hbool. apply orb_true_iff. left.
      apply orb_true_r. }
    simpl. rewrite Hcan. unfold decomposeM, decompose. rewrite Hbool.
    reflexivity.
Qed.

End UnreachablePairs.

Lemma isSubspace_aborts_on_BooleanConstant_Constructor_witness :
  isBool sampleOracle TBool = true
  /\ isSubspace sampleOracle 3 (TypeSpace TBool)
       (Constructor TMaybeBool "none" [])
     = Abort.
Proof.
  split; [reflexivity|].
  exact (proj2 (@isSubspace_aborts_on_BooleanConstant_Constructor
                  SampleTy sampleOracle 0 TMaybeBool "none" [])
           TBool eq_refl).
Defined.

(** ** Empty members of a disjunct *)

Section EmptyMembers.

Variable Ty : Type.
Variable O : TypeOracle Ty.

Lemma minus_Disjunct_right :
  forall (n : nat) (this : Space Ty) (SP : list (Space Ty)),
    isEmpty this = false ->
    minus O (S n) this (Disjunct SP)
    = foldM (fun left right => minus O n left right) SP this.
Proof.
  intros n this SP Hthis. destruct this; try discriminate; reflexivity.
Qed.

Lemma foldM_minus_filter :
  forall (n : nat) (SP : list (Space Ty)) (acc : Space Ty),
    foldM (fun left right => minus O (S n) left right) SP acc
    = foldM (fun left right => minus O (S n) left right)
        (filter nonEmpty SP) acc.
Proof.
  intros n. induction SP as [|x SP IH]; intros acc; [reflexivity|].
  destruct x; cbn [filter nonEmpty isEmpty negb foldM];
    try (destruct (minus O (S n) acc _); cbn [bind];
         [apply IH|reflexivity|reflexivity]).
  assert (Hacc : minus O (S n) acc Empty = Ok acc)
    by (destruct acc; reflexivity).
  rewrite Hacc. cbn [bind]. apply IH.
Qed.

Lemma mapM_intersect_filter :
  forall (n : nat) (this : Space Ty) (SP : list (Space Ty)),
    (intersectedCases <- mapM (fun s => intersect O (S n) this s) SP ;;
     Ok (filter nonEmpty intersectedCases))
    = (intersectedCases <-
         mapM (fun s => intersect O (S n) this s) (filter nonEmpty SP) ;;
       Ok (filter nonEmpty intersectedCases)).
Proof.
  intros n this. induction SP as [|x SP IH]; [reflexivity|].
  assert (Hstep : forall (y : Space Ty) (l : list (Space Ty)),
             (cs <- mapM (fun s => intersect O (S n) this s) (y :: l) ;;
              Ok (filter nonEmpty cs))
             = (c <- intersect O (S n) this y ;;
                cs <- (cs <- mapM (fun s => intersect O (S n) this s) l ;;
                       Ok (filter nonEmpty cs)) ;;
                Ok (if nonEmpty c then c :: cs else cs))).
  { intros y l. cbn [mapM].
    destruct (intersect O (S n) this y) as [c| |]; cbn [bind];
      try reflexivity.
    destruct (mapM (fun s => intersect O (S n) this s) l); cbn [bind filter];
      reflexivity. }
  destruct (nonEmpty x) eqn:Hx; cbn [filter]; rewrite Hx.
  - rewrite !Hstep, IH. reflexivity.
  - rewrite Hstep, <- IH.
    destruct x; try discriminate.
    assert (He : intersect O (S n) this Empty = Ok Empty).
    { simpl. rewrite orb_true_r. reflexivity. }
    rewrite He. cbn [bind nonEmpty isEmpty negb].
    destruct (cs <- mapM (fun s => intersect O (S n) this s) SP ;;
              Ok (filter nonEmpty cs)); reflexivity.
Qed.

Lemma bind_Ok_compose :
  forall (A B C : Type) (g : B -> C) (h : A -> B) (m m' : result A),
    (x <- m ;; Ok (h x)) = (x <- m' ;; Ok (h x)) ->
    (x <- m ;; Ok (g (h x))) = (x <- m' ;; Ok (g (h x))).
Proof.
  intros A B C g h [a| |] [a'| |] Heq; simpl in *;
    try discriminate; try reflexivity.
  injection Heq as ->. reflexivity.
Qed.

(** X6: a member of the right-hand disjunct that is [Empty] changes neither
    a subtraction nor an intersection: the run is the run on the disjunct
    without its empty members. *)
Theorem Empty_members_are_ignored :
  forall (fuel : nat) (this : Space Ty) (SP : list (Space Ty)),
    minus O (2 + fuel) this (Disjunct SP)
    = minus O (2 + fuel) this (Disjunct (filter nonEmpty SP))
    /\ intersect O (2 + fuel) this (Disjunct SP)
       = intersect O (2 + fuel) this (Disjunct (filter nonEmpty SP)).
Proof.
  intros fuel this SP. split.
  - destruct this; try reflexivity;
      cbn [plus minus isEmpty]; apply foldM_minus_filter.
  - pose proof (mapM_intersect_filter fuel this SP) as Hm.
    destruct this; try reflexivity; cbn [plus intersect isEmpty orb];
      exact (@bind_Ok_compose _ _ _ (@examineDecomp Ty) _ _ _ Hm).
Qed.

(** X7: after [simplify], it makes no difference that [examineDecomp]
    returns a lone space, or [Empty], where a disjunct could stand. *)
Theorem simplify_examineDecomp :
  forall decomposition : list (Space Ty),
    simplify O (examineDecomp decomposition)
    = simplify O (Disjunct decomposition).
Proof.
  intros [|x [|y l]]; reflexivity.
Qed.

End EmptyMembers.

(** ** Patterns that cover nothing *)

Section OpaquePatterns.

Variable Ty : Type.
Variable Expr : Type.
Variable Placeholder : string.
Variable O : TypeOracle Ty.

Lemma forallb_of_map :
  forall (A B : Type) (f : B -> bool) (g : A -> B) (l : list A),
    forallb f (map g l) = forallb (fun x => f (g x)) l.
Proof.
  intros A B f g l. induction l as [|x l IH]; simpl; [reflexivity|].
  rewrite IH. reflexivity.
Qed.

Lemma filter_nonEmpty_all_Empty :
  forall spaces : list (Space Ty),
    forallb isEmpty spaces = true -> filter nonEmpty spaces = [].
Proof.
  induction spaces as [|x spaces IH]; simpl; intros Hall; [reflexivity|].
  apply andb_true_iff in Hall. destruct Hall as [Hx Hrest].
  unfold nonEmpty at 1. rewrite Hx. simpl. exact (IH Hrest).
Qed.

(** X8: without [limitedChecking], on a subject whose type does not
    decompose, a switch without unguarded default whose unguarded patterns
    all project to [Empty] (expression patterns such as integer literals,
    type tests, typed patterns) gets exactly the diagnostic asking for a
    default clause, however many such cases it has. *)
Theorem opaque_patterns_need_default :
  forall (fuel : nat) (Ctx : ASTContext) (Switch : SwitchStmt Ty Expr),
    canDecompose O (getSubjectType Switch) = false ->
    existsb (@unguardedDefault Ty Expr) (allCaseLabelItems Switch) = false ->
    forallb (fun caseItem => isEmpty (projectItem O caseItem))
      (filter (@unguarded Ty Expr) (allCaseLabelItems Switch)) = true ->
    checkExhaustiveness Placeholder O (2 + fuel) Ctx Switch false
    = Ok [needsDefault Placeholder Ctx Switch].
Proof.
  intros fuel Ctx Switch Hcan Hdef Hall.
  unfold checkExhaustiveness. rewrite projectCases_spec.
  cbv zeta. fold (allCaseLabelItems Switch). rewrite Hdef.
  cbn [app]. change (2 + fuel) with (S (S fuel)).
  rewrite minus_Disjunct_right by reflexivity.
  rewrite foldM_minus_filter, filter_nonEmpty_all_Empty
    by (rewrite forallb_of_map; exact Hall).
  cbn [foldM bind simplify]. rewrite Hcan. cbn [isEmpty]. rewrite Hcan.
  unfold diagnoseMissingCases, needsDefault.
  destruct (empty (getCases Switch)); reflexivity.
Qed.

Lemma projectPattern_not_Disjunct :
  forall item : Pattern Ty,
    SpaceKind_eqb (getKind (projectPattern O item)) KDisjunct = false.
Proof.
  induction item as [ty|ty|value|sub IH| | |sub IH|sub IH|ty sub IH
                    |ty name|ty name sub IH|ty elts IH]
    using Pattern_ind; try reflexivity; try exact IH.
  destruct sub; try reflexivity; try exact IH.
Qed.

Lemma projected_spaces_not_Disjunct :
  forall (cases : list (CaseStmt Ty Expr)) (spaces : list (Space Ty)),
    projectCases O cases [] = Some spaces ->
    forallb (fun s => negb (SpaceKind_eqb (getKind s) KDisjunct)) spaces
    = true.
Proof.
  intros cases spaces. rewrite projectCases_spec. cbv zeta.
  destruct (existsb _ _); [discriminate|].
  intros Hs. injection Hs as <-. cbn [app].
  induction (filter _ _) as [|caseItem items IH]; [reflexivity|].
  cbn [map forallb]. unfold projectItem at 1.
  rewrite projectPattern_not_Disjunct. exact IH.
Qed.

(** X9: no pattern projects to a disjunct, so the covered space the check
    subtracts is a disjunct of spaces none of which is a disjunct. *)
Theorem projection_is_never_a_Disjunct :
  forall (item : Pattern Ty) (cases : list (CaseStmt Ty Expr))
         (spaces : list (Space Ty)),
    SpaceKind_eqb (getKind (projectPattern O item)) KDisjunct = false
    /\ (projectCases O cases [] = Some spaces ->
        forallb (fun s => negb (SpaceKind_eqb (getKind s) KDisjunct)) spaces
        = true).
Proof.
  intros item cases spaces. split; [apply projectPattern_not_Disjunct|].
  rewrite projectCases_spec. cbv zeta.
  destruct (existsb _ _); [discriminate|].
  intros Hs. injection Hs as <-. cbn [app].
  induction (filter _ _) as [|caseItem items IH]; [reflexivity|].
  cbn [map forallb]. unfold projectItem at 1.
  rewrite projectPattern_not_Disjunct. exact IH.
Qed.

End OpaquePatterns.

Lemma opaque_patterns_need_default_witness :
  canDecompose sampleOracle TInt = false
  /\ checkExhaustiveness samplePlaceholder sampleOracle 2
       {| DiagnosticsEditorMode := true |}
       (sampleSwitchOn TInt [ExprPattern; TypedPattern (AnyPattern TInt)])
       false
     = Ok [ {| diagLoc := 0;
               diagMessage := non_exhaustive_switch true true "";
               diagFixIts := [(9, "default: <#code#>" << newline)] |} ].
Proof.
  split; [reflexivity|].
  exact (@opaque_patterns_need_default SampleTy unit samplePlaceholder
           sampleOracle 0 {| DiagnosticsEditorMode := true |}
           (sampleSwitchOn TInt [ExprPattern; TypedPattern (AnyPattern TInt)])
           eq_refl eq_refl eq_refl).
Defined.

Lemma projection_is_never_a_Disjunct_witness :
  projectCases sampleOracle (getCases sampleSwitch) [] = None
  /\ forallb (fun s => negb (SpaceKind_eqb (getKind s) KDisjunct))
       [Constructor TMaybeBool "none" [];
        Constructor TMaybeBool "some" [BooleanConstant true]]
     = true.
Proof.
  split; [reflexivity|].
  exact (proj2 (@projection_is_never_a_Disjunct SampleTy unit sampleOracle
                  (AnyPattern TInt)
                  (getCases (sampleSwitchOn TMaybeBool
                               [nonePattern; somePattern (BoolPattern true)]))
                  [Constructor TMaybeBool "none" [];
                   Constructor TMaybeBool "some" [BooleanConstant true]])
           eq_refl).
Defined.

(** ** Subtracting patterns from a decomposition *)

Section StrikingProperties.

Variable Ty : Type.
Variable O : TypeOracle Ty.

Lemma minus_Disjunct_left :
  forall (n : nat) (SP : list (Space Ty)) (p : Space Ty),
    isPatternLeaf p = true ->
    minus O (S n) (Disjunct SP) p
    = (smallSpaces <- mapM (fun first => minus O n first p) SP ;;
       Ok (examineDecomp smallSpaces)).
Proof.
  intros n SP p Hp. destruct p; try discriminate; reflexivity.
Qed.

Lemma minus_Type_leaf :
  forall (n : nat) (T : Ty) (p : Space Ty),
    isPatternLeaf p = true ->
    minus O (S n) (TypeSpace T) p
    = if canDecompose O T then
        spaces <- decomposeM O T ;; minus O n (examineDecomp spaces) p
      else Ok (TypeSpace T).
Proof.
  intros n T p Hp. destruct p; try discriminate; reflexivity.
Qed.

Lemma strike_nil : forall d : Space Ty, strike [] d = d.
Proof.
  intros d. reflexivity.
Qed.

Lemma strike_cons :
  forall (p : Space Ty) (ps : list (Space Ty)) (d : Space Ty),
    strike (p :: ps) d = strike ps (strike [p] d).
Proof.
  intros p ps d. unfold strike. simpl. rewrite orb_false_r.
  destruct (names p d); simpl; [|reflexivity].
  assert (Hnone : existsb (fun p0 => names p0 (@Empty Ty)) ps = false).
  { induction ps as [|q ps IH]; simpl; [reflexivity|].
    rewrite IH. destruct q as [| |? ? [|]| |]; reflexivity. }
  rewrite Hnone. reflexivity.
Qed.

Lemma struckBy_Empty :
  forall p : Space Ty, struckBy O p Empty.
Proof.
  intros p m. unfold struckBy, strike. simpl. rewrite orb_false_r.
  destruct p as [| |? ? [|]| |]; reflexivity.
Qed.

Lemma struckBy_strike :
  forall p q d : Space Ty, struckBy O p d -> struckBy O p (strike [q] d).
Proof.
  intros p q d Hd. unfold strike at 1. simpl. rewrite orb_false_r.
  destruct (names q d); [apply struckBy_Empty|exact Hd].
Qed.

Lemma mapM_struck :
  forall (n : nat) (p : Space Ty) (L : list (Space Ty)),
    Forall (struckBy O p) L ->
    mapM (fun first => minus O (S n) first p) L = Ok (map (strike [p]) L).
Proof.
  intros n p L HL. induction HL as [|d L Hd _ IH]; [reflexivity|].
  cbn [mapM map]. rewrite (Hd n), IH. reflexivity.
Qed.

Lemma minus_examineDecomp_struck :
  forall (n : nat) (p : Space Ty) (L : list (Space Ty)),
    isPatternLeaf p = true ->
    Forall (struckBy O p) L ->
    minus O (S (S n)) (examineDecomp L) p
    = Ok (examineDecomp (map (strike [p]) L)).
Proof.
  intros n p L Hp HL. destruct L as [|d [|e L]].
  - reflexivity.
  - inversion HL as [|? ? Hd _]; subst. exact (Hd (S n)).
  - change (examineDecomp (d :: e :: L)) with (Disjunct (d :: e :: L)).
    rewrite minus_Disjunct_left by exact Hp.
    rewrite (@mapM_struck n p _ HL). reflexivity.
Qed.

Lemma foldM_struck :
  forall (n : nat) (ps : list (Space Ty)) (L : list (Space Ty)),
    forallb isPatternLeaf ps = true ->
    Forall (fun p => Forall (struckBy O p) L) ps ->
    foldM (fun left right => minus O (S (S n)) left right) ps
      (examineDecomp L)
    = Ok (examineDecomp (map (strike ps) L)).
Proof.
  intros n. induction ps as [|p ps IH]; intros L Hleaf Hall.
  - cbn [foldM]. rewrite (map_ext (strike []) (fun d => d) strike_nil).
    rewrite map_id. reflexivity.
  - cbn [forallb] in Hleaf. apply andb_true_iff in Hleaf.
    destruct Hleaf as [Hp Hps].
    inversion Hall as [|? ? HpL Hrest]; subst.
    cbn [foldM]. rewrite (@minus_examineDecomp_struck n p L Hp HpL).
    cbn [bind]. rewrite IH.
    + rewrite map_map. do 2 f_equal. apply map_ext. intros d.
      symmetry. apply strike_cons.
    + exact Hps.
    + apply Forall_forall. intros q Hq.
      pose proof (proj1 (Forall_forall _ _) Hrest q Hq) as HqL.
      apply Forall_forall. intros d Hd.
      apply in_map_iff in Hd. destruct Hd as [d0 [<- Hd0]].
      apply struckBy_strike.
      exact (proj1 (Forall_forall _ _) HqL d0 Hd0).
Qed.

(** The subtraction of a disjunct of pattern spaces from the space of a
    type that decomposes into [D]. *)
Lemma minus_Type_patterns :
  forall (fuel : nat) (T : Ty) (D ps : list (Space Ty)),
    decompose O T = Some D ->
    ps <> [] ->
    forallb isPatternLeaf ps = true ->
    Forall (fun p => Forall (struckBy O p) D) ps ->
    minus O (4 + fuel) (TypeSpace T) (Disjunct ps)
    = Ok (examineDecomp (map (strike ps) D)).
Proof.
  intros fuel T D ps HD Hps Hleaf Hall.
  assert (Hcan : canDecompose O T = true).
  { apply canDecompose_decompose. rewrite HD. discriminate. }
  change (4 + fuel) with (S (S (S (S fuel)))).
  rewrite minus_Disjunct_right by reflexivity.
  destruct ps as [|p ps]; [contradiction|].
  cbn [forallb] in Hleaf. apply andb_true_iff in Hleaf.
  destruct Hleaf as [Hp Hrest].
  inversion Hall as [|? ? HpD HrestD]; subst.
  cbn [foldM].
  assert (Hfirst : minus O (S (S (S fuel))) (TypeSpace T) p
                   = Ok (examineDecomp (map (strike [p]) D))).
  { rewrite minus_Type_leaf by exact Hp. rewrite Hcan. unfold decomposeM.
    rewrite HD. cbn [bind].
    apply minus_examineDecomp_struck; assumption. }
  rewrite Hfirst. cbn [bind]. rewrite foldM_struck.
  - rewrite map_map. do 2 f_equal. apply map_ext. intros d.
    symmetry. apply strike_cons.
  - exact Hrest.
  - apply Forall_forall. intros q Hq.
    pose proof (proj1 (Forall_forall _ _) HrestD q Hq) as HqD.
    apply Forall_forall. intros d Hd.
    apply in_map_iff in Hd. destruct Hd as [d0 [<- Hd0]].
    apply struckBy_strike.
    exact (proj1 (Forall_forall _ _) HqD d0 Hd0).
Qed.


End StrikingProperties.

(** ** A switch that names every case of an enum *)

Section EnumSwitch.

Variable Ty : Type.
Variable Expr : Type.
Variable Placeholder : string.
Variable O : TypeOracle Ty.

Lemma projectCases_switchOver :
  forall (subject : Ty) (patterns : list (Pattern Ty))
         (StartLoc EndLoc : SourceLoc),
    projectCases O
      (getCases (switchOver Expr subject patterns StartLoc EndLoc))
      []
    = Some (map (projectPattern O) patterns).
Proof.
  intros subject patterns StartLoc EndLoc. cbn [switchOver getCases].
  change (Some (map (projectPattern O) patterns))
    with (Some ([] ++ map (projectPattern O) patterns)).
  generalize (@nil (Space Ty)).
  induction patterns as [|pattern patterns IH]; intros spaces.
  - rewrite app_nil_r. reflexivity.
  - cbn [map projectCases getCaseLabelItems projectCaseLabelItems
           getGuardExpr isSome isDefault getPattern].
    rewrite IH, <- app_assoc. reflexivity.
Qed.




End EnumSwitch.


(** ** The report of missing cases *)

Section MissingCaseReport.

Variable Ty : Type.
Variable Expr : Type.
Variable Placeholder : string.
Variable O : TypeOracle Ty.

Lemma diagnoseMissingCases_report :
  forall (fuel : nat) (Ctx : ASTContext) (Switch : SwitchStmt Ty Expr)
         (M : list (Space Ty)) (texts : list string),
    Forall2 (shownAs O fuel) M texts ->
    diagnoseMissingCases Placeholder O fuel Ctx Switch false (Disjunct M)
    = Ok (reportMissing Placeholder Ctx Switch texts).
Proof.
  intros fuel Ctx Switch M texts HM.
  unfold diagnoseMissingCases, reportMissing. cbn [isEmpty getSpaces bind].
  destruct (DiagnosticsEditorMode Ctx).
  - match goal with
    | |- bind (foldM ?f M ?start) _ = _ =>
        assert (Hfold : forall Buffer,
                   foldM f M Buffer
                   = Ok (fold_left
                           (fun Buffer text =>
                              Buffer << "case" << " " << text << ": "
                                     << Placeholder << newline)
                           texts Buffer))
    end.
    { induction HM as [|m text M texts [Hflat Hshow] _ IH]; intros Buffer.
      - reflexivity.
      - cbn [foldM fold_left]. rewrite Hflat. cbn [bind foldM].
        rewrite Hshow. cbn [bind]. apply IH. }
    rewrite Hfold. reflexivity.
  - match goal with
    | |- bind (foldM ?f M [?heading]) _ = _ =>
        assert (Hfold : forall Diags,
                   foldM f M Diags
                   = Ok (Diags
                         ++ map (fun text =>
                                   {| diagLoc := getStartLoc Switch;
                                      diagMessage :=
                                        missing_particular_case text;
                                      diagFixIts := [] |})
                                texts))
    end.
    { induction HM as [|m text M texts [Hflat Hshow] _ IH]; intros Diags.
      - cbn [foldM map]. rewrite app_nil_r. reflexivity.
      - cbn [foldM map]. rewrite Hflat. cbn [bind foldM].
        rewrite Hshow. cbn [bind]. rewrite IH, <- app_assoc. reflexivity. }
    rewrite Hfold. reflexivity.
Qed.

Lemma shownAs_BooleanConstant :
  forall (n : nat) (C : bool),
    shownAs O (S n) (BooleanConstant C) (if C then "true" else "false").
Proof.
  intros n C. split; [reflexivity|]. intros buffer. reflexivity.
Qed.

Lemma struckBy_BooleanConstant :
  forall b c : bool, struckBy O (BooleanConstant c) (BooleanConstant b).
Proof.
  intros b c m. unfold strike. cbn [existsb names minus isEmpty].
  rewrite orb_false_r. destruct (Bool.eqb b c); reflexivity.
Qed.

Lemma existsb_names_BooleanConstant :
  forall (b : bool) (bs : list bool),
    existsb (fun p : Space Ty => names p (BooleanConstant b))
      (map (@BooleanConstant Ty) bs)
    = existsb (Bool.eqb b) bs.
Proof.
  intros b bs. induction bs as [|c bs IH]; [reflexivity|].
  cbn [map existsb names]. rewrite IH. reflexivity.
Qed.

(** X11: on a subject of boolean type, a switch whose patterns are the
    boolean literals [bs] is reported as missing exactly the constants that
    do not occur among [bs], [true] before [false], and gets no diagnostic
    when both occur. *)
Theorem boolean_switch_report :
  forall (fuel : nat) (T : Ty) (bs : list bool) (Ctx : ASTContext)
         (StartLoc EndLoc : SourceLoc),
    isBool O T = true ->
    checkExhaustiveness Placeholder O (4 + fuel) Ctx
      (switchOver Expr T (map (@BoolPattern Ty) bs) StartLoc EndLoc) false
    = Ok (match missingConstants bs with
          | [] => []
          | texts =>
              reportMissing Placeholder Ctx
                (switchOver Expr T (map (@BoolPattern Ty) bs) StartLoc EndLoc)
                texts
          end).
Proof.
  intros fuel T bs Ctx StartLoc EndLoc Hbool.
  assert (HD : decompose O T
               = Some [BooleanConstant true; BooleanConstant false]).
  { unfold decompose. rewrite Hbool. reflexivity. }
  assert (Hcan : canDecompose O T = true).
  { apply canDecompose_decompose. rewrite HD. discriminate. }
  pose proof (shownAs_BooleanConstant (3 + fuel) true) as Htrue.
  pose proof (shownAs_BooleanConstant (3 + fuel) false) as Hfalse.
  unfold checkExhaustiveness.
  rewrite projectCases_switchOver, map_map.
  change (map (fun x => projectPattern O (BoolPattern x)) bs)
    with (map (@BooleanConstant Ty) bs).
  set (Switch := switchOver Expr T (map (@BoolPattern Ty) bs) StartLoc EndLoc).
  change (getSubjectType Switch) with T.
  destruct bs as [|b bs].
  - change (minus O (4 + fuel) (TypeSpace T) (Disjunct (map _ [])))
      with (@Ok (Space Ty) (TypeSpace T)).
    cbn [bind simplify]. rewrite Hcan, HD. cbn [isEmpty]. rewrite Hcan.
    unfold decomposeM. rewrite HD. cbn [bind].
    apply diagnoseMissingCases_report.
    repeat constructor; assumption.
  - remember (b :: bs) as cs eqn:Hcs.
    rewrite (@minus_Type_patterns Ty O fuel T _ _ HD).
    + cbn [bind]. unfold strike. cbn [map].
      rewrite !existsb_names_BooleanConstant. unfold missingConstants.
      destruct (existsb (Bool.eqb true) cs),
        (existsb (Bool.eqb false) cs).
      all: cbv beta iota zeta
             delta [simplify examineDecomp map filter isEmpty nonEmpty negb
                    getKind SpaceKind_eqb app].
      * reflexivity.
      * apply diagnoseMissingCases_report.
        repeat constructor; assumption.
      * apply diagnoseMissingCases_report.
        repeat constructor; assumption.
      * apply diagnoseMissingCases_report.
        repeat constructor; assumption.
    + subst cs. discriminate.
    + clear. induction cs as [|c l IH]; [reflexivity|exact IH].
    + apply Forall_forall. intros p Hp.
      apply in_map_iff in Hp. destruct Hp as [c [<- _]].
      repeat constructor; apply struckBy_BooleanConstant.
Qed.

End MissingCaseReport.

Lemma boolean_switch_report_witness :
  isBool sampleOracle TBool = true
  /\ checkExhaustiveness samplePlaceholder sampleOracle 4
       {| DiagnosticsEditorMode := true |}
       (switchOver unit TBool
          (map (@BoolPattern SampleTy) [false; false]) 0 9)
       false
     = Ok [ {| diagLoc := 0;
               diagMessage :=
                 non_exhaustive_switch true false
                   ("case true: <#code#>" << newline);
               diagFixIts := [(9, "case true: <#code#>" << newline)] |} ].
Proof.
  split; [reflexivity|].
  exact (@boolean_switch_report SampleTy unit samplePlaceholder sampleOracle
           0 TBool [false; false] {| DiagnosticsEditorMode := true |} 0 9
           eq_refl).
Defined.

(** ** The report on an enum without payloads *)

Section EnumReport.

Variable Ty : Type.
Variable Expr : Type.
Variable Placeholder : string.
Variable O : TypeOracle Ty.

Lemma append_empty_right : forall text : string, text << "" = text.
Proof.
  induction text as [|c text IH]; simpl; [reflexivity|].
  rewrite IH. reflexivity.
Qed.

Lemma append_associative :
  forall a b c : string, a << b << c = a << (b << c).
Proof.
  induction a as [|x a IH]; intros b c; simpl; [reflexivity|].
  rewrite IH. reflexivity.
Qed.

Lemma shownAs_headOnly :
  forall (n : nat) (T : Ty) (name : Identifier),
    shownAs O (S n) (headOnly T name) (caseText name).
Proof.
  intros n T name. split; [reflexivity|]. intros buffer.
  unfold headOnly, caseText. cbn [show].
  destruct (String.eqb name ""); cbn [negb].
  - rewrite append_empty_right. reflexivity.
  - rewrite append_associative. reflexivity.
Qed.

Lemma decompose_plain_elements :
  forall (T : Ty) (elements : list (EnumElementDecl Ty)),
    forallb (@plainElement Ty) elements = true ->
    map (decomposeElement O T) elements
    = map (fun eed => headOnly T (eedName eed)) elements.
Proof.
  intros T. induction elements as [|eed elements IH]; intros Hall;
    [reflexivity|].
  cbn [forallb] in Hall. apply andb_true_iff in Hall.
  destruct Hall as [Hplain Hrest]. cbn [map]. rewrite (IH Hrest).
  unfold plainElement in Hplain. apply andb_true_iff in Hplain.
  destruct Hplain as [Hty Hpayload]. unfold decomposeElement.
  rewrite Hty. destruct (eedTy eed); [discriminate|reflexivity].
Qed.

Lemma uncovered_plain_elements :
  forall (T : Ty) (elements : list (EnumElementDecl Ty))
         (idents : list Identifier),
    filter nonEmpty
      (map (simplify O)
         (map (strike (map (headOnly T) idents))
            (map (fun eed => headOnly T (eedName eed)) elements)))
    = map (fun eed => headOnly T (eedName eed))
        (filter (fun eed => negb (existsb (String.eqb (eedName eed)) idents))
           elements).
Proof.
  intros T elements idents.
  induction elements as [|eed elements IH]; [reflexivity|].
  assert (Hex : existsb (fun p => names p (headOnly T (eedName eed)))
                  (map (headOnly T) idents)
                = existsb (String.eqb (eedName eed)) idents).
  { clear. induction idents as [|ident idents IH]; [reflexivity|].
    cbn [map existsb]. rewrite IH. reflexivity. }
  change (filter nonEmpty
            (simplify O
               (strike (map (headOnly T) idents) (headOnly T (eedName eed)))
             :: map (simplify O)
                  (map (strike (map (headOnly T) idents))
                     (map (fun eed0 => headOnly T (eedName eed0)) elements)))
          = map (fun eed0 => headOnly T (eedName eed0))
              (if negb (existsb (String.eqb (eedName eed)) idents)
               then eed :: filter
                             (fun eed0 =>
                                negb (existsb (String.eqb (eedName eed0))
                                        idents))
                             elements
               else filter
                      (fun eed0 =>
                         negb (existsb (String.eqb (eedName eed0)) idents))
                      elements)).
  unfold strike at 1. rewrite Hex.
  destruct (existsb (String.eqb (eedName eed)) idents);
    cbn [negb simplify headOnly filter nonEmpty isEmpty map];
    rewrite <- IH; reflexivity.
Qed.

Lemma Forall2_shownAs_headOnly :
  forall (n : nat) (T : Ty) (elements : list (EnumElementDecl Ty)),
    Forall2 (shownAs O (S n))
      (map (fun eed => headOnly T (eedName eed)) elements)
      (map (fun eed => caseText (eedName eed)) elements).
Proof.
  intros n T. induction elements as [|eed elements IH]; cbn [map].
  - constructor.
  - constructor; [apply shownAs_headOnly|exact IH].
Qed.

(** X12: on an enum (that is not the boolean type) whose elements all have
    an interface type and no payload, a switch whose patterns name elements
    is reported as missing exactly the elements it does not name, in the
    order of their declaration, and gets no diagnostic when it names them
    all. *)
Theorem plain_enum_switch_report :
  forall (fuel : nat) (T : Ty) (elements : list (EnumElementDecl Ty))
         (idents : list Identifier) (Ctx : ASTContext)
         (StartLoc EndLoc : SourceLoc),
    isBool O T = false ->
    getEnumOrBoundGenericEnum O T = Some elements ->
    forallb (@plainElement Ty) elements = true ->
    checkExhaustiveness Placeholder O (4 + fuel) Ctx
      (switchOver Expr T (map (headOnlyPattern T) idents) StartLoc EndLoc)
      false
    = Ok (match missingElements elements idents with
          | [] => []
          | texts =>
              reportMissing Placeholder Ctx
                (switchOver Expr T (map (headOnlyPattern T) idents)
                   StartLoc EndLoc)
                texts
          end).
Proof.
  intros fuel T elements idents Ctx StartLoc EndLoc Hbool Henum Hplain.
  assert (HD : decompose O T
               = Some (map (fun eed => headOnly T (eedName eed)) elements)).
  { unfold decompose. rewrite Hbool, Henum.
    rewrite (decompose_plain_elements T elements Hplain). reflexivity. }
  assert (Hcan : canDecompose O T = true).
  { apply canDecompose_decompose. rewrite HD. discriminate. }
  unfold checkExhaustiveness.
  rewrite projectCases_switchOver, map_map.
  change (map (fun x => projectPattern O (headOnlyPattern T x)) idents)
    with (map (headOnly T) idents).
  set (Switch := switchOver Expr T (map (headOnlyPattern T) idents)
                   StartLoc EndLoc).
  change (getSubjectType Switch) with T.
  unfold missingElements.
  destruct idents as [|ident idents].
  - assert (Hall : filter
                     (fun eed : EnumElementDecl Ty =>
                        negb (existsb (String.eqb (eedName eed))
                                (@nil Identifier)))
                     elements = elements).
    { clear. induction elements as [|eed l IH]; [reflexivity|].
      simpl. simpl in IH. rewrite IH. reflexivity. }
    rewrite Hall.
    change (minus O (4 + fuel) (TypeSpace T) (Disjunct (map _ [])))
      with (@Ok (Space Ty) (TypeSpace T)).
    cbn [bind simplify]. rewrite Hcan, HD.
    destruct elements as [|eed elements]; [reflexivity|].
    cbn [map isEmpty]. rewrite Hcan. unfold decomposeM. rewrite HD.
    cbn [bind map]. apply diagnoseMissingCases_report.
    exact (Forall2_shownAs_headOnly (3 + fuel) T (eed :: elements)).
  - remember (ident :: idents) as ids eqn:Hids.
    rewrite (@minus_Type_patterns Ty O fuel T _ _ HD).
    + cbn [bind].
      rewrite simplify_examineDecomp, simplify_Disjunct_examineDecomp.
      rewrite uncovered_plain_elements.
      pose proof (Forall2_shownAs_headOnly (3 + fuel) T
                    (filter (fun eed =>
                               negb (existsb (String.eqb (eedName eed)) ids))
                       elements)) as Hshown.
      destruct (filter _ elements) as [|e1 [|e2 rest]].
      * reflexivity.
      * cbn [map examineDecomp isEmpty headOnly getKind SpaceKind_eqb negb].
        apply diagnoseMissingCases_report. exact Hshown.
      * cbn [map examineDecomp isEmpty headOnly getKind SpaceKind_eqb negb].
        apply diagnoseMissingCases_report. exact Hshown.
    + subst ids. discriminate.
    + clear. induction ids as [|c l IH]; [reflexivity|exact IH].
    + apply Forall_forall. intros p Hp.
      apply in_map_iff in Hp. destruct Hp as [c [<- _]].
      apply Forall_forall. intros d Hd.
      apply in_map_iff in Hd. destruct Hd as [eed [<- _]].
      intros m. unfold strike, headOnly. cbn [existsb names minus isEmpty].
      rewrite orb_false_r. destruct (String.eqb (eedName eed) c); reflexivity.
Qed.

End EnumReport.

Lemma plain_enum_switch_report_witness :
  forallb (@plainElement unit) directionElements = true
  /\ checkExhaustiveness samplePlaceholder directionOracle 4
       {| DiagnosticsEditorMode := false |}
       (switchOver unit tt
          (map (headOnlyPattern tt) ["south"; "north"; "south"]) 0 9)
       false
     = Ok (missing [".east"; ".west"]).
Proof.
  split; [reflexivity|].
  exact (@plain_enum_switch_report unit unit samplePlaceholder
           directionOracle 0 tt directionElements
           ["south"; "north"; "south"] {| DiagnosticsEditorMode := false |}
           0 9 eq_refl eq_refl eq_refl).
Defined.

(** ** A catch-all pattern *)

Section CatchAll.

Variable Ty : Type.
Variable Expr : Type.
Variable Placeholder : string.
Variable O : TypeOracle Ty.
Variable subject : Ty.
Hypothesis isEqual_subject : isEqual O subject subject = true.

Lemma mapM_Forall :
  forall (A B : Type) (Q : B -> Prop) (f : A -> result B) (l : list A)
         (rs : list B),
    mapM f l = Ok rs ->
    (forall x r, In x l -> f x = Ok r -> Q r) ->
    Forall Q rs.
Proof.
  intros A B Q f. induction l as [|x l IH]; intros rs Hrs HQ;
    simpl in Hrs.
  - injection Hrs as <-. constructor.
  - destruct (f x) as [y| |] eqn:Hy; simpl in Hrs; try discriminate.
    destruct (mapM f l) as [ys| |]; simpl in Hrs; try discriminate.
    injection Hrs as <-. constructor.
    + exact (HQ x y (or_introl eq_refl) Hy).
    + apply IH; [reflexivity|].
      intros x0 r Hin. apply HQ. right. exact Hin.
Qed.

Lemma residual_examineDecomp :
  forall L : list (Space Ty),
    Forall (residual O subject) L -> residual O subject (examineDecomp L).
Proof.
  intros [|x [|y L]] HL.
  - constructor.
  - inversion HL; assumption.
  - constructor. exact HL.
Qed.

Lemma void_examineDecomp :
  forall L : list (Space Ty), Forall (@void Ty) L -> void (examineDecomp L).
Proof.
  intros [|x [|y L]] HL.
  - constructor.
  - inversion HL; assumption.
  - constructor. exact HL.
Qed.

Lemma residual_decompose :
  forall D : list (Space Ty),
    decompose O subject = Some D -> Forall (residual O subject) D.
Proof.
  intros D. unfold decompose.
  destruct (isBool O subject) eqn:Hbool.
  - intros HD. injection HD as <-. repeat constructor; exact Hbool.
  - destruct (getEnumOrBoundGenericEnum O subject) as [children|].
    + intros HD. injection HD as <-. apply Forall_forall. intros d Hd.
      apply in_map_iff in Hd. destruct Hd as [eed [<- _]].
      unfold decomposeElement.
      destruct (negb (hasInterfaceType eed)); constructor.
    + destruct (getAsTupleType O subject); [|discriminate].
      intros HD. injection HD as <-. repeat constructor.
Qed.

Lemma minusParams_constructors :
  forall (f : Space Ty -> Space Ty -> result (Space Ty))
         (s : Space Ty -> Space Ty -> result bool)
         (d : Space Ty -> Space Ty -> result (Space Ty))
         (T : Ty) (H : Identifier) (params l1 l2 : list (Space Ty))
         (idx : nat) (constrSpaces cs : list (Space Ty)) (foundBad fb : bool),
    minusParams O f s d T H params l1 l2 idx constrSpaces foundBad
    = Ok (Some (cs, fb)) ->
    Forall (residual O subject) constrSpaces ->
    Forall (residual O subject) cs.
Proof.
  intros f s d T H params l1. revert params.
  induction l1 as [|x l1 IH]; intros params [|y l2] idx acc cs fb0 fb Hr Hacc;
    simpl in Hr; try (injection Hr as <- _; exact Hacc).
  destruct (f x y) as [v| |]; simpl in Hr; try discriminate.
  destruct (isEmpty (simplify O v)); [discriminate|].
  destruct (s x y) as [c| |]; simpl in Hr; try discriminate.
  destruct (d x y) as [w| |]; simpl in Hr; try discriminate.
  eapply IH; [exact Hr|].
  apply Forall_app. split; [exact Hacc|]. repeat constructor.
Qed.

Lemma minus_residual :
  forall (fuel : nat) (acc p r : Space Ty),
    residual O subject acc ->
    patternSpace subject p ->
    minus O fuel acc p = Ok r ->
    residual O subject r.
Proof.
  induction fuel as [|n IH]; intros acc p r Hacc Hp Hr; [discriminate|].
  destruct acc as [|T|T H SP|SP|C].
  - injection Hr as <-. constructor.
  - assert (T = subject) as -> by (inversion Hacc; reflexivity).
    destruct p as [|U|U H2 SP2|SP2|C2]; simpl in Hp, Hr.
    + injection Hr as <-. exact Hacc.
    + subst U. rewrite isEqual_subject in Hr. injection Hr as <-.
      constructor.
    + destruct (canDecompose O subject); [|injection Hr as <-; exact Hacc].
      unfold decomposeM in Hr.
      destruct (decompose O subject) as [D|] eqn:HD; simpl in Hr;
        [|discriminate].
      refine (IH _ _ _ (residual_examineDecomp (residual_decompose HD)) _ Hr).
      exact I.
    + contradiction.
    + destruct (canDecompose O subject); [|injection Hr as <-; exact Hacc].
      unfold decomposeM in Hr.
      destruct (decompose O subject) as [D|] eqn:HD; simpl in Hr;
        [|discriminate].
      refine (IH _ _ _ (residual_examineDecomp (residual_decompose HD)) _ Hr).
      exact I.
  - destruct p as [|U|U H2 SP2|SP2|C2]; simpl in Hp, Hr;
      try (injection Hr as <-; first [exact Hacc|constructor]).
    + destruct (negb (String.eqb H H2)); [injection Hr as <-; exact Hacc|].
      destruct SP2 as [|y SP2]; [injection Hr as <-; constructor|].
      destruct (minusParams O (intersect O n) (isSubspace O n) (minus O n)
                  T H SP SP (y :: SP2) 0 [] false)
        as [[[cs fb]|]| |] eqn:Hloop; simpl in Hr; try discriminate.
      * destruct fb; injection Hr as <-; [|constructor].
        apply residual_examineDecomp.
        eapply minusParams_constructors; [exact Hloop|]. constructor.
      * injection Hr as <-. exact Hacc.
    + contradiction.
  - assert (HSP : Forall (residual O subject) SP)
      by (inversion Hacc; assumption).
    assert (Hmap : forall rs,
               mapM (fun first => minus O n first p) SP = Ok rs ->
               residual O subject (examineDecomp rs)).
    { intros rs Hrs. apply residual_examineDecomp.
      eapply mapM_Forall; [exact Hrs|]. intros x r0 Hin Hx.
      exact (IH x p r0 (proj1 (Forall_forall _ _) HSP x Hin) Hp Hx). }
    destruct p as [|U|U H2 SP2|SP2|C2]; simpl in Hp, Hr.
    + injection Hr as <-. exact Hacc.
    + destruct (mapM _ SP) as [rs| |]; simpl in Hr; try discriminate.
      injection Hr as <-. apply Hmap. reflexivity.
    + destruct (mapM _ SP) as [rs| |]; simpl in Hr; try discriminate.
      injection Hr as <-. apply Hmap. reflexivity.
    + contradiction.
    + destruct (mapM _ SP) as [rs| |]; simpl in Hr; try discriminate.
      injection Hr as <-. apply Hmap. reflexivity.
  - assert (Hbool : isBool O subject = true)
      by (inversion Hacc; assumption).
    destruct p as [|U|U H2 SP2|SP2|C2]; simpl in Hp, Hr.
    + injection Hr as <-. exact Hacc.
    + subst U. rewrite Hbool in Hr. injection Hr as <-. constructor.
    + injection Hr as <-. exact Hacc.
    + contradiction.
    + destruct (Bool.eqb C C2); injection Hr as <-;
        [constructor|exact Hacc].
Qed.

Lemma minus_subject_void :
  forall (fuel : nat) (acc r : Space Ty),
    residual O subject acc ->
    minus O fuel acc (TypeSpace subject) = Ok r ->
    void r.
Proof.
  induction fuel as [|n IH]; intros acc r Hacc Hr; [discriminate|].
  destruct acc as [|T|T H SP|SP|C]; simpl in Hr.
  - injection Hr as <-. constructor.
  - assert (T = subject) as -> by (inversion Hacc; reflexivity).
    rewrite isEqual_subject in Hr. injection Hr as <-. constructor.
  - injection Hr as <-. constructor.
  - assert (HSP : Forall (residual O subject) SP)
      by (inversion Hacc; assumption).
    destruct (mapM _ SP) as [rs| |] eqn:Hrs; simpl in Hr; try discriminate.
    injection Hr as <-. apply void_examineDecomp.
    eapply mapM_Forall; [exact Hrs|]. intros x r0 Hin Hx.
    exact (IH x r0 (proj1 (Forall_forall _ _) HSP x Hin) Hx).
  - assert (Hbool : isBool O subject = true)
      by (inversion Hacc; assumption).
    rewrite Hbool in Hr. injection Hr as <-. constructor.
Qed.

Lemma minus_void :
  forall (fuel : nat) (acc p r : Space Ty),
    void acc ->
    patternSpace subject p ->
    minus O fuel acc p = Ok r ->
    void r.
Proof.
  induction fuel as [|n IH]; intros acc p r Hacc Hp Hr; [discriminate|].
  destruct Hacc as [|SP HSP].
  - injection Hr as <-. constructor.
  - assert (Hmap : forall rs,
               mapM (fun first => minus O n first p) SP = Ok rs ->
               void (examineDecomp rs)).
    { intros rs Hrs. apply void_examineDecomp.
      eapply mapM_Forall; [exact Hrs|]. intros x r0 Hin Hx.
      exact (IH x p r0 (proj1 (Forall_forall _ _) HSP x Hin) Hp Hx). }
    destruct p as [|U|U H2 SP2|SP2|C2]; simpl in Hp, Hr.
    + injection Hr as <-. constructor. exact HSP.
    + destruct (mapM _ SP) as [rs| |]; simpl in Hr; try discriminate.
      injection Hr as <-. apply Hmap. reflexivity.
    + destruct (mapM _ SP) as [rs| |]; simpl in Hr; try discriminate.
      injection Hr as <-. apply Hmap. reflexivity.
    + contradiction.
    + destruct (mapM _ SP) as [rs| |]; simpl in Hr; try discriminate.
      injection Hr as <-. apply Hmap. reflexivity.
Qed.

Lemma simplify_void :
  forall s : Space Ty, void s -> simplify O s = Empty.
Proof.
  induction s as [|T|T H SP _|SP IH|C] using Space_ind; intros Hs;
    try (inversion Hs; fail).
  - reflexivity.
  - assert (HSP : Forall (@void Ty) SP) by (inversion Hs; assumption).
    rewrite simplify_Disjunct_examineDecomp.
    assert (Hnone : filter nonEmpty (map (simplify O) SP) = []).
    { clear Hs. induction SP as [|x SP IHSP]; [reflexivity|].
      inversion IH as [|? ? Hx Hrest]; subst.
      inversion HSP as [|? ? Hvx Hvrest]; subst.
      cbn [map filter]. rewrite (Hx Hvx). cbn [nonEmpty isEmpty negb].
      exact (IHSP Hrest Hvrest). }
    rewrite Hnone. reflexivity.
Qed.

Lemma foldM_minus_void :
  forall (n : nat) (ps : list (Space Ty)) (acc r : Space Ty),
    void acc ->
    Forall (patternSpace subject) ps ->
    foldM (fun left right => minus O n left right) ps acc = Ok r ->
    void r.
Proof.
  intros n. induction ps as [|p ps IH]; intros acc r Hacc Hps Hr;
    simpl in Hr.
  - injection Hr as <-. exact Hacc.
  - inversion Hps as [|? ? Hp Hrest]; subst.
    destruct (minus O n acc p) as [acc'| |] eqn:Hstep; simpl in Hr;
      try discriminate.
    exact (IH acc' r (@minus_void n acc p acc' Hacc Hp Hstep) Hrest Hr).
Qed.

Lemma foldM_minus_catch_all :
  forall (n : nat) (ps : list (Space Ty)) (acc r : Space Ty),
    residual O subject acc ->
    Forall (patternSpace subject) ps ->
    In (TypeSpace subject) ps ->
    foldM (fun left right => minus O n left right) ps acc = Ok r ->
    void r.
Proof.
  intros n. induction ps as [|p ps IH]; intros acc r Hacc Hps Hin Hr;
    [contradiction|].
  simpl in Hr. inversion Hps as [|? ? Hp Hrest]; subst.
  destruct (minus O n acc p) as [acc'| |] eqn:Hstep; simpl in Hr;
    try discriminate.
  destruct Hin as [->|Hin].
  - exact (@foldM_minus_void n ps acc' r
             (@minus_subject_void n acc acc' Hacc Hstep) Hrest Hr).
  - exact (IH acc' r (@minus_residual n acc p acc' Hacc Hp Hstep)
             Hrest Hin Hr).
Qed.

(** X13: without [limitedChecking], when the unguarded patterns project to
    spaces that include the space of the subject's type (a wildcard or a
    binding of the whole subject), and every other pattern that projects to
    the space of a type has the subject's type, the check never emits a
    diagnostic: whenever it returns, it returns none, wherever the
    catch-all stands among the cases. *)
Theorem catch_all_pattern_is_exhaustive :
  forall (fuel : nat) (Ctx : ASTContext) (Switch : SwitchStmt Ty Expr)
         (spaces : list (Space Ty)) (diags : list Diagnostic),
    getSubjectType Switch = subject ->
    projectCases O (getCases Switch) [] = Some spaces ->
    (forall T, In (TypeSpace T) spaces -> T = subject) ->
    In (TypeSpace subject) spaces ->
    checkExhaustiveness Placeholder O fuel Ctx Switch false = Ok diags ->
    diags = [].
Proof.
  intros fuel Ctx Switch spaces diags Hsubject Hproject Htyped Hin Hrun.
  assert (Hps : Forall (patternSpace subject) spaces).
  { apply Forall_forall. intros p Hp.
    assert (Hkind :
              forallb (fun s => negb (SpaceKind_eqb (getKind s) KDisjunct))
                spaces = true)
      by (eapply projected_spaces_not_Disjunct; exact Hproject).
    destruct p as [|T|T H SP|SP|C]; simpl; try exact I.
    - exact (Htyped T Hp).
    - assert (Hd := proj1 (forallb_forall _ _) Hkind (Disjunct SP) Hp).
      discriminate. }
  unfold checkExhaustiveness in Hrun. rewrite Hproject, Hsubject in Hrun.
  destruct (minus O fuel (TypeSpace subject) (Disjunct spaces))
    as [difference| |] eqn:Hminus; simpl in Hrun; try discriminate.
  assert (Hvoid : void difference).
  { destruct fuel as [|n]; [discriminate|].
    rewrite minus_Disjunct_right in Hminus by reflexivity.
    exact (@foldM_minus_catch_all n spaces (TypeSpace subject) difference
             (residual_Type O subject) Hps Hin Hminus). }
  rewrite (simplify_void Hvoid) in Hrun. simpl in Hrun.
  injection Hrun as <-. reflexivity.
Qed.

End CatchAll.

Lemma catch_all_pattern_is_exhaustive_witness :
  exists diags : list Diagnostic,
    sampleRun (sampleSwitchOn TMaybeBool
                 [somePattern (BoolPattern true); AnyPattern TMaybeBool;
                  nonePattern])
    = Ok diags
    /\ diags = [].
Proof.
  exists []. split; [reflexivity|].
  refine (@catch_all_pattern_is_exhaustive SampleTy unit samplePlaceholder
            sampleOracle TMaybeBool eq_refl 12
            {| DiagnosticsEditorMode := false |}
            (sampleSwitchOn TMaybeBool
               [somePattern (BoolPattern true); AnyPattern TMaybeBool;
                nonePattern])
            [Constructor TMaybeBool "some" [BooleanConstant true];
             TypeSpace TMaybeBool; Constructor TMaybeBool "none" []]
            [] eq_refl eq_refl _ _ eq_refl).
  - intros T [Hs|[Hs|[Hs|[]]]]; try discriminate.
    injection Hs as <-. reflexivity.
  - right. left. reflexivity.
Defined.

(** ** Showing a space *)

Section Showing.

Variable Ty : Type.
Variable O : TypeOracle Ty.

Lemma list_sum_cons :
  forall (a : nat) (l : list nat), list_sum (a :: l) = a + list_sum l.
Proof.
  reflexivity.
Qed.

Ltac sums :=
  cbn [map] in *; rewrite ?list_sum_cons in *;
  change (list_sum []) with 0 in *.

Lemma size_member :
  forall (SP : list (Space Ty)) (s : Space Ty),
    In s SP -> size s <= list_sum (map (@size Ty) SP).
Proof.
  induction SP as [|x SP IH]; intros s Hin; [contradiction|].
  cbn [map]; rewrite ?list_sum_cons. destruct Hin as [->|Hin]; [lia|].
  specialize (IH s Hin). lia.
Qed.

Lemma size_filter :
  forall (f : Space Ty -> bool) (SP : list (Space Ty)),
    list_sum (map (@size Ty) (filter f SP)) <= list_sum (map (@size Ty) SP).
Proof.
  intros f. induction SP as [|x SP IH]; [reflexivity|].
  cbn [filter]. destruct (f x); cbn [map]; rewrite ?list_sum_cons; lia.
Qed.

Lemma size_simplify :
  forall s : Space Ty, size (simplify O s) <= size s.
Proof.
  induction s as [|T|T H SP IH|SP IH|C] using Space_ind;
    try (cbn; lia).
  - cbn [simplify]. destruct (canDecompose O T); [|lia].
    destruct (decompose O T) as [[|d D]|]; cbn; lia.
  - assert (Hmap : list_sum (map (@size Ty) (map (simplify O) SP))
                   <= list_sum (map (@size Ty) SP)).
    { induction IH as [|x l Hx _ IHl]; [reflexivity|].
      cbn [map]; rewrite ?list_sum_cons. lia. }
    destruct SP as [|x SP]; [reflexivity|].
    cbn [simplify]. destruct (existsb _ _); [cbn; lia|].
    cbn [size]. lia.
  - assert (Hmap : list_sum (map (@size Ty) (map (simplify O) SP))
                   <= list_sum (map (@size Ty) SP)).
    { induction IH as [|x l Hx _ IHl]; [reflexivity|].
      cbn [map]; rewrite ?list_sum_cons. lia. }
    assert (Hfilter := size_filter (fun el => negb (isEmpty el))
                         (map (simplify O) SP)).
    rewrite simplify_Disjunct_collapse. unfold collapse.
    cbn [size].
    destruct (map (simplify O) SP) as [|a [|b l]] eqn:Hs.
    + cbn. lia.
    + sums. lia.
    + destruct (filter _ (a :: b :: l)) as [|c [|e l']].
      * cbn. lia.
      * sums. lia.
      * cbn [size]. lia.
Qed.

Lemma foldM_members_text :
  forall (k : nat) (normalize : bool) (SP : list (Space Ty)),
    Forall (fun sp =>
              exists text : string,
                forall (n : nat) (buffer : string),
                  k <= n ->
                  show O n sp buffer normalize = Ok (buffer << text)) SP ->
    exists text : string,
      forall (n : nat) (buffer : string),
        k <= n ->
        foldM (fun buf sp =>
                 buf1 <- show O n sp (buf << newline) normalize ;;
                 Ok (buf1 << " |"))
              SP buffer
        = Ok (buffer << text).
Proof.
  intros k normalize. induction SP as [|sp SP IH]; intros HSP.
  - exists "". intros n buffer _. cbn [foldM].
    rewrite append_empty_right. reflexivity.
  - inversion HSP as [|? ? [t Ht] Hrest]; subst.
    destruct (IH Hrest) as [ts Hts].
    exists (newline << t << " |" << ts). intros n buffer Hn.
    cbn [foldM]. rewrite (Ht n _ Hn). cbn [bind].
    rewrite (Hts n _ Hn). rewrite !append_associative. reflexivity.
Qed.

Lemma showParams_text :
  forall (k : nat) (showParam : nat -> Space Ty -> string -> result string)
         (SP : list (Space Ty)),
    Forall (fun sp =>
              exists text : string,
                forall (n : nat) (buffer : string),
                  k <= n -> showParam n sp buffer = Ok (buffer << text)) SP ->
    forall first : bool,
    exists text : string,
      forall (n : nat) (buffer : string),
        k <= n ->
        showParams (showParam n) SP first buffer = Ok (buffer << text).
Proof.
  intros k showParam. induction SP as [|sp SP IH]; intros HSP first.
  - exists "". intros n buffer _. cbn [showParams].
    rewrite append_empty_right. reflexivity.
  - inversion HSP as [|? ? [t Ht] Hrest]; subst.
    destruct (IH Hrest false) as [ts Hts].
    exists ((if negb first then ", " else "") << t << ts).
    intros n buffer Hn. cbn [showParams]. cbv zeta.
    rewrite (Ht n _ Hn). cbn [bind]. rewrite (Hts n _ Hn).
    destruct first; cbn [negb]; rewrite !append_associative; reflexivity.
Qed.

Lemma show_bounded :
  forall (k : nat) (s : Space Ty) (normalize : bool),
    showBudget s normalize < k ->
    exists text : string,
      forall (n : nat) (buffer : string),
        k <= n -> show O n s buffer normalize = Ok (buffer << text).
Proof.
  induction k as [|k IH]; intros s normalize Hk; [lia|].
  unfold showBudget in Hk.
  destruct s as [|T|T H SP|SP|C].
  - exists "[EMPTY]". intros [|n] buffer Hn; [lia|]. reflexivity.
  - exists ((if negb normalize then printType O T else "") << "_").
    intros [|n] buffer Hn; [lia|]. cbn [show]. cbv zeta.
    destruct normalize; cbn [negb];
      rewrite ?append_associative; reflexivity.
  - assert (Hparams :
              Forall (fun sp =>
                        exists text : string,
                          forall (n : nat) (buffer : string),
                            k <= n ->
                            (fun n param buf =>
                               if normalize
                               then show O n (simplify O param) buf normalize
                               else show O n param buf true) n sp buffer
                            = Ok (buffer << text)) SP).
    { apply Forall_forall. intros sp Hsp.
      pose proof (size_member SP sp Hsp) as Hle.
      pose proof (size_simplify sp) as Hsimp.
      cbn [size] in Hk. cbv beta.
      destruct normalize.
      - apply IH. unfold showBudget. lia.
      - apply IH. unfold showBudget. lia. }
    destruct (showParams_text _ Hparams true) as [ts Hts].
    exists ((if negb (String.eqb H "") then "." << H else "")
            << match SP with [] => "" | _ => "(" << ts << ")" end).
    intros [|n] buffer Hn; [lia|]. cbn [show]. cbv zeta.
    assert (Hn' : k <= n) by lia.
    destruct SP as [|sp SP].
    + destruct (negb (String.eqb H ""));
        rewrite ?append_empty_right, ?append_associative; reflexivity.
    + specialize (Hts n). cbv beta in Hts. rewrite (Hts _ Hn').
      cbn [bind].
      destruct (negb (String.eqb H ""));
        rewrite ?append_associative; reflexivity.
  - destruct normalize.
    + destruct (IH (simplify O (Disjunct SP)) false) as [t Ht].
      { pose proof (size_simplify (Disjunct SP)). unfold showBudget. lia. }
      exists t. intros [|n] buffer Hn; [lia|].
      cbn [show]. apply Ht. lia.
    + assert (Hmembers :
                Forall (fun sp =>
                          exists text : string,
                            forall (n : nat) (buffer : string),
                              k <= n ->
                              show O n sp buffer false
                              = Ok (buffer << text)) SP).
      { apply Forall_forall. intros sp Hsp.
        pose proof (size_member SP sp Hsp) as Hle.
        cbn [size] in Hk. apply IH. unfold showBudget. lia. }
      destruct (@foldM_members_text k false SP Hmembers) as [ts Hts].
      exists ("DISJOIN(" << ts << ")").
      intros [|n] buffer Hn; [lia|]. cbn [show].
      rewrite (Hts n _ ltac:(lia)). cbn [bind].
      rewrite !append_associative. reflexivity.
  - exists (if C then "true" else "false").
    intros [|n] buffer Hn; [lia|]. reflexivity.
Qed.

(** X14: [show] returns on every space: a budget of twice its size, and
    one more call when normalizing, is enough. It only appends to the
    buffer, and what it appends depends neither on what the buffer holds nor
    on the budget. *)
Theorem show_returns_and_appends :
  forall (s : Space Ty) (normalize : bool),
    exists text : string,
      forall (fuel : nat) (buffer : string),
        showBudget s normalize < fuel ->
        show O fuel s buffer normalize = Ok (buffer << text).
Proof.
  intros s normalize.
  destruct (@show_bounded (S (showBudget s normalize)) s normalize
              (Nat.lt_succ_diag_r _)) as [text Htext].
  exists text. intros fuel buffer Hfuel. apply Htext. exact Hfuel.
Qed.

End Showing.

(** ** The report of an uncovered disjunct *)

Section Reporting.

Variable Ty : Type.
Variable Expr : Type.
Variable Placeholder : string.
Variable O : TypeOracle Ty.

Lemma foldM_app :
  forall (A B : Type) (h : A -> B -> result A) (l1 l2 : list B) (acc : A),
    foldM h (l1 ++ l2) acc = (acc' <- foldM h l1 acc ;; foldM h l2 acc').
Proof.
  intros A B h. induction l1 as [|x l1 IH]; intros l2 acc;
    cbn [app foldM bind]; [reflexivity|].
  destruct (h acc x) as [acc'| |]; cbn [bind]; [apply IH|reflexivity..].
Qed.

Lemma flatsOf_shownFor :
  forall s : Space Ty, flatsOf s = Ok (shownFor s).
Proof.
  intros s. unfold flatsOf, shownFor. rewrite flatten_leaves. simpl.
  destruct (leaves s); reflexivity.
Qed.

Lemma foldM_flatsOf :
  forall (A : Type) (h : A -> Space Ty -> result A) (SP : list (Space Ty))
         (acc : A),
    foldM (fun acc s => flats <- flatsOf s ;; foldM h flats acc) SP acc
    = foldM h (flat_map (@shownFor Ty) SP) acc.
Proof.
  intros A h. induction SP as [|s SP IH]; intros acc; [reflexivity|].
  cbn [foldM flat_map]. rewrite flatsOf_shownFor. cbn [bind].
  rewrite foldM_app.
  destruct (foldM h (shownFor s) acc) as [acc'| |]; cbn [bind];
    [apply IH|reflexivity..].
Qed.

Lemma size_positive : forall s : Space Ty, 1 <= size s.
Proof.
  intros [|T|T H SP|SP|C]; cbn [size]; lia.
Qed.

Lemma showBudget_shownFor :
  forall (s flat : Space Ty),
    In flat (shownFor s) -> showBudget flat true <= showBudget s true.
Proof.
  intros s flat. unfold shownFor.
  pose proof (leaves_are_leaves s) as Hleaves.
  destruct (leaves s) as [|l ls] eqn:Hl; cbn [empty].
  - intros [<-|[]]. lia.
  - intros Hin.
    assert (Hleaf := proj1 (forallb_forall _ _) Hleaves flat Hin).
    pose proof (size_positive s). unfold showBudget.
    destruct flat; try discriminate; cbn [size]; lia.
Qed.

Lemma shown_texts :
  forall (fuel : nat) (flats : list (Space Ty)),
    (forall flat, In flat flats -> showBudget flat true < fuel) ->
    exists texts : list string,
      Forall2 (fun flat text =>
                 forall buffer : string,
                   show O fuel flat buffer true = Ok (buffer << text))
              flats texts.
Proof.
  intros fuel. induction flats as [|flat flats IH]; intros Hfuel.
  - exists []. constructor.
  - destruct IH as [texts Htexts].
    { intros f Hf. apply Hfuel. right. exact Hf. }
    destruct (@show_bounded Ty O (S (showBudget flat true)) flat true
                (Nat.lt_succ_diag_r _)) as [text Htext].
    exists (text :: texts). constructor; [|exact Htexts].
    intros buffer. apply Htext. apply Hfuel. left. reflexivity.
Qed.

(** X15: [diagnoseMissingCases] returns on every uncovered disjunct, given a
    budget that lets [show] finish on its members. It reports one case per
    leaf of each member, or the member itself when it has no leaf (a
    constructor space), in order: in the editor as the lines of one
    diagnostic and of its fix-it, otherwise as one diagnostic each after the
    heading. The text of a case is what [show] appends for it. *)
Theorem diagnoseMissingCases_reports_every_leaf :
  forall (fuel : nat) (Ctx : ASTContext) (Switch : SwitchStmt Ty Expr)
         (SP : list (Space Ty)),
    (forall s, In s SP -> showBudget s true < fuel) ->
    exists texts : list string,
      Forall2 (fun flat text =>
                 forall buffer : string,
                   show O fuel flat buffer true = Ok (buffer << text))
              (flat_map (@shownFor Ty) SP) texts
      /\ diagnoseMissingCases Placeholder O fuel Ctx Switch false
           (Disjunct SP)
         = Ok (reportMissing Placeholder Ctx Switch texts).
Proof.
  intros fuel Ctx Switch SP Hfuel.
  destruct (@shown_texts fuel (flat_map (@shownFor Ty) SP)) as [texts HM].
  { intros flat Hflat. apply in_flat_map in Hflat.
    destruct Hflat as [s [Hs Hflat]].
    pose proof (showBudget_shownFor s flat Hflat).
    specialize (Hfuel s Hs). lia. }
  exists texts. split; [exact HM|].
  unfold diagnoseMissingCases, reportMissing. cbn [isEmpty getSpaces bind].
  destruct (DiagnosticsEditorMode Ctx); rewrite foldM_flatsOf.
  - match goal with
    | |- bind (foldM ?f ?M ?start) _ = _ =>
        assert (Hfold : forall Buffer,
                   foldM f M Buffer
                   = Ok (fold_left
                           (fun Buffer text =>
                              Buffer << "case" << " " << text << ": "
                                     << Placeholder << newline)
                           texts Buffer))
    end.
    { induction HM as [|m text M texts Hshow _ IH]; intros Buffer.
      - reflexivity.
      - cbn [foldM fold_left]. rewrite Hshow. cbn [bind]. apply IH. }
    rewrite Hfold. reflexivity.
  - match goal with
    | |- bind (foldM ?f ?M [?heading]) _ = _ =>
        assert (Hfold : forall Diags,
                   foldM f M Diags
                   = Ok (Diags
                         ++ map (fun text =>
                                   {| diagLoc := getStartLoc Switch;
                                      diagMessage :=
                                        missing_particular_case text;
                                      diagFixIts := [] |})
                                texts))
    end.
    { induction HM as [|m text M texts Hshow _ IH]; intros Diags.
      - cbn [foldM map]. rewrite app_nil_r. reflexivity.
      - cbn [foldM map]. rewrite Hshow. cbn [bind].
        rewrite IH, <- app_assoc. reflexivity. }
    rewrite Hfold. reflexivity.
Qed.

End Reporting.

Lemma diagnoseMissingCases_reports_every_leaf_witness :
  exists texts : list string,
    Forall2 (fun flat text =>
               forall buffer : string,
                 show sampleOracle 12 flat buffer true = Ok (buffer << text))
            [BooleanConstant false;
             Constructor TMaybeBool "some" [BooleanConstant true]]
            texts
    /\ diagnoseMissingCases samplePlaceholder sampleOracle 12
         {| DiagnosticsEditorMode := false |} sampleSwitch false
         (Disjunct [Disjunct [BooleanConstant false];
                    Constructor TMaybeBool "some" [BooleanConstant true]])
       = Ok (reportMissing samplePlaceholder
               {| DiagnosticsEditorMode := false |} sampleSwitch texts).
Proof.
  apply (@diagnoseMissingCases_reports_every_leaf SampleTy unit
           samplePlaceholder sampleOracle 12
           {| DiagnosticsEditorMode := false |} sampleSwitch
           [Disjunct [BooleanConstant false];
            Constructor TMaybeBool "some" [BooleanConstant true]]).
  intros s [<-|[<-|[]]]; vm_compute; lia.
Defined.

(** ** A space and the disjuncts that hold it *)

Section Containment.

Variable Ty : Type.
Variable O : TypeOracle Ty.
Hypothesis isEqual_reflexive : forall T : Ty, isEqual O T T = true.

Lemma within_transitive :
  forall s m t : Space Ty, within s m -> within m t -> within s t.
Proof.
  intros s m t Hsm Hmt. induction Hmt as [|member SP Hin _ IH].
  - exact Hsm.
  - eapply within_member; [exact Hin|exact IH].
Qed.

Lemma allM_all_true :
  forall (A : Type) (p : A -> result bool) (l : list A) (b : bool),
    allM p l = Ok b ->
    (forall x b', In x l -> p x = Ok b' -> b' = true) ->
    b = true.
Proof.
  intros A p. induction l as [|x l IH]; intros b Hr Hl; cbn [allM] in Hr.
  - injection Hr as <-. reflexivity.
  - destruct (p x) as [bx| |] eqn:Hx; cbn [bind] in Hr; try discriminate.
    rewrite (Hl x bx (or_introl eq_refl) Hx) in Hr.
    apply (IH b Hr). intros y b' Hy. apply Hl. right. exact Hy.
Qed.

Lemma allM2_diagonal :
  forall (A : Type) (p : A -> A -> result bool) (l : list A) (b : bool),
    allM2 p l l = Ok b ->
    (forall x b', In x l -> p x x = Ok b' -> b' = true) ->
    b = true.
Proof.
  intros A p. induction l as [|x l IH]; intros b Hr Hl; cbn [allM2] in Hr.
  - injection Hr as <-. reflexivity.
  - destruct (p x x) as [bx| |] eqn:Hx; cbn [bind] in Hr; try discriminate.
    rewrite (Hl x bx (or_introl eq_refl) Hx) in Hr.
    apply (IH b Hr). intros y b' Hy. apply Hl. right. exact Hy.
Qed.

Lemma anyM_some_true :
  forall (A : Type) (p : A -> result bool) (l : list A) (rest : result bool)
         (x : A) (b : bool),
    anyM p l rest = Ok b ->
    In x l ->
    (forall b', p x = Ok b' -> b' = true) ->
    b = true.
Proof.
  intros A p. induction l as [|y l IH]; intros rest x b Hr Hin Hx;
    [contradiction|].
  cbn [anyM] in Hr.
  destruct (p y) as [[|]| |] eqn:Hy; cbn [bind] in Hr; try discriminate.
  - injection Hr as <-. reflexivity.
  - destruct Hin as [->|Hin].
    + discriminate (Hx false Hy).
    + exact (IH rest x b Hr Hin Hx).
Qed.

(** X16: when the types are equal to themselves, a space is a subspace of
    itself and of every disjunct that holds it, at any depth: whenever
    [isSubspace] returns on such a pair, it answers [true]. *)
Theorem isSubspace_of_a_disjunct_that_holds_it :
  forall (fuel : nat) (s t : Space Ty) (b : bool),
    within s t ->
    isSubspace O fuel s t = Ok b ->
    b = true.
Proof.
  induction fuel as [|n IH]; intros s t b Hwithin Hr; [discriminate|].
  destruct s as [|T|T H SP|SP|C].
  - injection Hr as <-. reflexivity.
  - destruct Hwithin as [|member L Hin Hmember].
    + cbn in Hr. rewrite isEqual_reflexive in Hr. injection Hr as <-.
      reflexivity.
    + cbn [isSubspace isEmpty] in Hr.
      eapply anyM_some_true; [exact Hr|exact Hin|].
      intros b' Hb'. exact (IH _ _ _ Hmember Hb').
  - destruct Hwithin as [|member L Hin Hmember].
    + cbn in Hr. rewrite String.eqb_refl in Hr. cbn [negb] in Hr.
      destruct SP as [|x SP]; [injection Hr as <-; reflexivity|].
      eapply allM2_diagonal; [exact Hr|].
      intros y b' _ Hb'. exact (IH _ _ _ (within_itself y) Hb').
    + cbn [isSubspace isEmpty] in Hr.
      eapply anyM_some_true; [exact Hr|exact Hin|].
      intros b' Hb'. exact (IH _ _ _ Hmember Hb').
  - assert (Hall : allM (fun space => isSubspace O n space t) SP = Ok b).
    { destruct t; try exact Hr. inversion Hwithin. }
    eapply allM_all_true; [exact Hall|].
    intros m b' Hm Hb'. cbv beta in Hb'.
    refine (IH _ _ _ _ Hb').
    eapply within_transitive; [|exact Hwithin].
    eapply within_member; [exact Hm|apply within_itself].
  - destruct Hwithin as [|member L Hin Hmember].
    + cbn in Hr. injection Hr as <-. apply Bool.eqb_reflx.
    + cbn [isSubspace isEmpty] in Hr.
      eapply anyM_some_true; [exact Hr|exact Hin|].
      intros b' Hb'. exact (IH _ _ _ Hmember Hb').
Qed.

End Containment.

Lemma isSubspace_of_a_disjunct_that_holds_it_witness :
  within (Constructor TMaybeBool "none" [])
    (Disjunct [BooleanConstant true;
               Disjunct [TypeSpace TInt; Constructor TMaybeBool "none" []]])
  /\ isSubspace sampleOracle 4 (Constructor TMaybeBool "none" [])
       (Disjunct [BooleanConstant true;
                  Disjunct [TypeSpace TInt;
                            Constructor TMaybeBool "none" []]])
     = Ok true.
Proof.
  assert (Hwithin :
            within (Constructor TMaybeBool "none" [])
              (Disjunct [BooleanConstant true;
                         Disjunct [TypeSpace TInt;
                                   Constructor TMaybeBool "none" []]])).
  { eapply within_member; [right; left; reflexivity|].
    eapply within_member; [right; left; reflexivity|].
    apply within_itself. }
  split; [exact Hwithin|].
  assert (Hrun :
            exists b,
              isSubspace sampleOracle 4 (Constructor TMaybeBool "none" [])
                (Disjunct [BooleanConstant true;
                           Disjunct [TypeSpace TInt;
                                     Constructor TMaybeBool "none" []]])
              = Ok b)
    by (eexists; reflexivity).
  destruct Hrun as [b Hb]. rewrite Hb. f_equal.
  refine (@isSubspace_of_a_disjunct_that_holds_it SampleTy sampleOracle _
            4 _ _ b Hwithin Hb).
  intros []; reflexivity.
Defined.

(** ** The form of what the check reports *)

Section ReportForms.

Variable Ty : Type.
Variable Expr : Type.
Variable Placeholder : string.
Variable O : TypeOracle Ty.

Lemma foldM_invariant :
  forall (A B : Type) (Q : A -> Prop) (f : A -> B -> result A)
         (l : list B) (acc r : A),
    foldM f l acc = Ok r ->
    Q acc ->
    (forall a x a', Q a -> f a x = Ok a' -> Q a') ->
    Q r.
Proof.
  intros A B Q f. induction l as [|x l IH]; intros acc r Hr Hacc Hstep;
    cbn [foldM] in Hr.
  - injection Hr as <-. exact Hacc.
  - destruct (f acc x) as [acc'| |] eqn:Hx; cbn [bind] in Hr;
      try discriminate.
    exact (IH acc' r Hr (Hstep acc x acc' Hacc Hx) Hstep).
Qed.

Lemma diagnoseMissingCases_wellFormed :
  forall (fuel : nat) (Ctx : ASTContext) (Switch : SwitchStmt Ty Expr)
         (JustNeedsDefault : bool) (uncovered : Space Ty)
         (diags : list Diagnostic),
    diagnoseMissingCases Placeholder O fuel Ctx Switch JustNeedsDefault
      uncovered = Ok diags ->
    wellFormedReport Switch (DiagnosticsEditorMode Ctx) diags = true.
Proof.
  intros fuel Ctx Switch JustNeedsDefault uncovered diags.
  unfold diagnoseMissingCases. cbv zeta.
  destruct JustNeedsDefault.
  { destruct (empty (getCases Switch)); intros Hr; injection Hr as <-;
      cbn; rewrite !Nat.eqb_refl, orb_true_r; reflexivity. }
  destruct (isEmpty uncovered); [intros Hr; injection Hr as <-; reflexivity|].
  destruct (DiagnosticsEditorMode Ctx).
  - destruct (getSpaces uncovered) as [spaces| |]; cbn [bind];
      try discriminate.
    destruct (foldM _ spaces _) as [Buffer| |]; cbn [bind];
      try discriminate.
    intros Hr. injection Hr as <-. cbn. rewrite !Nat.eqb_refl. reflexivity.
  - destruct (getSpaces uncovered) as [spaces| |]; cbn [bind];
      try discriminate.
    match goal with
    | |- bind (foldM ?f spaces [?heading]) _ = _ -> _ =>
        destruct (foldM f spaces [heading]) as [missing| |] eqn:Hfold;
        cbn [bind]; try discriminate;
        set (Q := fun Diags : list Diagnostic =>
                    exists notes,
                      Diags = heading :: notes
                      /\ forallb (isNote Switch) notes = true);
        assert (HQ : Q missing)
    end.
    { eapply foldM_invariant; [exact Hfold| |].
      - exists []. split; reflexivity.
      - intros Diags uncoveredSpace Diags' HDiags. cbv beta.
        destruct (flatsOf uncoveredSpace) as [flats| |]; cbn [bind];
          try discriminate.
        intros Hinner. eapply foldM_invariant; [exact Hinner|exact HDiags|].
        clear. intros Diags FlatSpace Diags' [notes [-> Hnotes]]. cbv beta.
        destruct (show O fuel FlatSpace "" true) as [Buffer| |]; cbn [bind];
          try discriminate.
        intros Hr. injection Hr as <-. eexists. split.
        + reflexivity.
        + rewrite forallb_app, Hnotes. unfold isNote, isHeading. cbn.
          rewrite Nat.eqb_refl. reflexivity. }
    destruct HQ as [notes [-> Hnotes]].
    intros Hr. injection Hr as <-. cbn. rewrite Nat.eqb_refl, Hnotes.
    reflexivity.
Qed.

(** X17: whatever the switch, the budget and the mode, what
    [checkExhaustiveness] reports when it returns is nothing, or one
    heading ([empty_switch_stmt] or [non_exhaustive_switch]) at the start of
    the switch whose fix-its insert at its end, followed by notes on
    missing cases at the start of the switch without fix-it; in the editor
    there is no note, so at most one diagnostic. *)
Theorem checkExhaustiveness_report_is_well_formed :
  forall (fuel : nat) (Ctx : ASTContext) (Switch : SwitchStmt Ty Expr)
         (limitedChecking : bool) (diags : list Diagnostic),
    checkExhaustiveness Placeholder O fuel Ctx Switch limitedChecking
    = Ok diags ->
    wellFormedReport Switch (DiagnosticsEditorMode Ctx) diags = true
    /\ (DiagnosticsEditorMode Ctx = true -> List.length diags <= 1).
Proof.
  intros fuel Ctx Switch limitedChecking diags Hrun.
  assert (Hform :
            wellFormedReport Switch (DiagnosticsEditorMode Ctx) diags = true).
  { revert Hrun. unfold checkExhaustiveness.
    destruct limitedChecking.
    { destruct (empty (getCases Switch)).
      - apply diagnoseMissingCases_wellFormed.
      - intros Hr. injection Hr as <-. reflexivity. }
    destruct (projectCases O (getCases Switch) []) as [spaces|];
      [|intros Hr; injection Hr as <-; reflexivity].
    cbv zeta.
    destruct (minus O fuel _ _) as [difference| |]; cbn [bind];
      try discriminate.
    destruct (isEmpty (simplify O difference));
      [intros Hr; injection Hr as <-; reflexivity|].
    destruct (simplify O difference) as [|T|T H SP|SP|C];
      try apply diagnoseMissingCases_wellFormed.
    destruct (canDecompose O T);
      [|apply diagnoseMissingCases_wellFormed].
    destruct (decomposeM O T) as [D| |]; cbn [bind]; try discriminate.
    apply diagnoseMissingCases_wellFormed. }
  split; [exact Hform|].
  intros Heditor. rewrite Heditor in Hform.
  destruct diags as [|d [|note notes]]; cbn [List.length]; try lia.
  cbn in Hform. rewrite !andb_false_r in Hform. discriminate.
Qed.

End ReportForms.

Lemma checkExhaustiveness_report_is_well_formed_witness :
  sampleRun (sampleSwitchOn TMaybePair
               [TuplePattern TMaybePair
                  [nonePattern; AnyPattern TMaybeBool]])
  = Ok (missing ["(.some(_), _)"])
  /\ wellFormedReport
       (sampleSwitchOn TMaybePair
          [TuplePattern TMaybePair [nonePattern; AnyPattern TMaybeBool]])
       false (missing ["(.some(_), _)"])
     = true.
Proof.
  assert (Hrun :
            sampleRun (sampleSwitchOn TMaybePair
                         [TuplePattern TMaybePair
                            [nonePattern; AnyPattern TMaybeBool]])
            = Ok (missing ["(.some(_), _)"]))
    by reflexivity.
  split; [exact Hrun|].
  exact (proj1 (@checkExhaustiveness_report_is_well_formed SampleTy unit
                  samplePlaceholder sampleOracle 12
                  {| DiagnosticsEditorMode := false |} _ false _ Hrun)).
Defined.

(** ** The packed pair of kinds, decoded *)

(** X18: [PairSwitch] packs the two kinds without loss: the value fits the
    16 bits of [Data], its low byte is the first kind and its high byte the
    second, so two pairs are packed to the same value only when they are
    the same pair, and no two [PAIRCASE] labels of a [switch] coincide. *)
Theorem PairSwitch_packs_without_loss :
  forall pair1 pair2 pair1' pair2' : SpaceKind,
    (0 <= PairSwitch pair1 pair2 < 2 ^ 16)%Z
    /\ Z.land (PairSwitch pair1 pair2) 255 = kindValue pair1
    /\ Z.shiftr (PairSwitch pair1 pair2) 8 = kindValue pair2
    /\ (PairSwitch pair1 pair2 = PairSwitch pair1' pair2' <->
        pair1 = pair1' /\ pair2 = pair2').
Proof.
  intros pair1 pair2 pair1' pair2'.
  split; [destruct pair1, pair2; vm_compute; split; congruence|].
  split; [destruct pair1, pair2; reflexivity|].
  split; [destruct pair1, pair2; reflexivity|].
  split.
  - destruct pair1, pair2, pair1', pair2'; vm_compute; intros Heq;
      first [split; reflexivity|discriminate Heq].
  - intros [-> ->]. reflexivity.
Qed.
